(** * Tellusim Python binding sample (main.py): model and verification

    The sample builds a procedural torus mesh and a procedural texture,
    runs a streaming worker thread next to a per-frame render callback,
    and shuts both down in a fixed order.  This development embeds the
    Python code of [main.py] and proves properties of

    - [create_mesh] and [create_image] (pure data construction),
    - [main_loop] (the per-frame callback handed to [window.run]),
    - [process_callback] (the streaming worker loop), and
    - the setup and shutdown skeleton of [main].

    Calls into the native [tellusimd] module are observable events; the
    values they return are taken from an environment record, one field per
    call whose result the Python code inspects. *)

From Stdlib Require Import ZArith QArith Qround Qabs Qpower Lia Lqa List Bool.
From stdpp Require Import base list.
Import ListNotations.

Open Scope Z_scope.

(** ** External constants

    [tellusimd] exports the numeric constants the sample reads; their
    values are not part of the Python source, so they are parameters. *)
Class Tellusimd := {
  Pi : Q;                     (* tellusimd.Pi, a Python float *)
  Maxu16 : Z;                 (* tellusimd.Maxu16 *)
  Window_ButtonLeft : Z;      (* Window.ButtonLeft *)
  Window_ButtonLeft2 : Z;     (* Window.ButtonLeft2 *)
  Control_ButtonNone : Z;     (* Control.ButtonNone *)
  Control_ButtonLeft : Z;     (* Control.ButtonLeft *)
}.

(** [math.cos] of the C library, on finite doubles. *)
Class Libm := { math_cos : Q -> Q }.

(** * Part 1: definitions *)

(** ** Python numbers

    Python [int] is [Z].  A finite Python [float] is the rational it
    denotes; arithmetic rounds the exact result to binary64 (53-bit
    significand, round to nearest, ties to even, gradual underflow below
    2^-1022) and leaves the finite range from 2^1024 on. *)
Module Py.

Inductive exn :=
| ZeroDivisionError
| OverflowError
| ValueError
| OutOfRange.   (* an index outside a native container *)

Inductive result (A : Type) :=
| Ok (a : A)
| Raise (e : exn).
Arguments Ok {A} a.
Arguments Raise {A} e.

#[global] Instance result_ret : MRet result := fun _ a => Ok a.
#[global] Instance result_bind : MBind result := fun _ _ f m =>
  match m with
  | Ok a => f a
  | Raise e => Raise e
  end.

Definition pow2 (k : Z) : Q := Qpower 2 k.

(** Nearest integer, ties to even. *)
Definition rhe (x : Q) : Z :=
  let f := Qfloor x in
  match Qcompare (x - inject_Z f) (1 # 2) with
  | Lt => f
  | Gt => f + 1
  | Eq => if Z.even f then f else f + 1
  end.

(** Binary exponent of a positive rational: 2^e <= x < 2^(e+1). *)
Definition ilog2 (x : Q) : Z :=
  let e0 := Z.log2 (Qnum x) - Z.log2 (Zpos (Qden x)) in
  if Qle_bool (pow2 e0) x then e0 else e0 - 1.

(** Exponent of the unit in the last place of the binade of [x]. *)
Definition ulp_exp (x : Q) : Z := Z.max (ilog2 x - 52) (-1074).

Definition round_pos (x : Q) : Q :=
  let k := ulp_exp x in (inject_Z (rhe (x / pow2 k)) * pow2 k)%Q.

Definition round64 (x : Q) : Q :=
  match Qcompare x 0 with
  | Gt => round_pos x
  | Lt => (- round_pos (- x))%Q
  | Eq => 0%Q
  end.

(** The double nearest to [x]; [None] when it is not finite. *)
Definition fl (x : Q) : option Q :=
  let r := round64 x in
  if Qle_bool (pow2 1024) (Qabs r) then None else Some r.

Definition fmul (x y : Q) : option Q := fl (x * y).
Definition fadd (x y : Q) : option Q := fl (x + y).
Definition fdiv (x y : Q) : option Q := fl (x / y).

(** [a / b] on two ints: the correctly rounded quotient. *)
Definition truediv (a b : Z) : result Q :=
  if b =? 0 then Raise ZeroDivisionError
  else match fl (inject_Z a / inject_Z b) with
       | Some r => Ok r
       | None => Raise OverflowError
       end.

(** [math.floor] on a finite float. *)
Definition floor (x : Q) : Z := Qfloor x.

(** [int(x)] on a finite float: truncation towards zero. *)
Definition int (x : Q) : Z :=
  if Qle_bool 0 x then Qfloor x else Qceiling x.

(** [for i in range(n): s = body(i, s)], stopping at the first raise. *)
Definition for_range {S : Type} (n : nat) (body : nat -> S -> result S) (s : S)
  : result S :=
  fold_left (fun acc i => s' ← acc; body i s') (seq 0 n) (Ok s).

End Py.

(** ** create_mesh (lines 34-92)

    The attribute values are floating-point functions of the grid point
    [(i, j)] and of [radius] and [texcoord]; an attribute slot records the
    grid point whose values were stored in it.  The [basis] attribute, the
    geometry and the bounds are derived by native calls from the four
    attributes and the index buffer and are not modelled. *)
Module Mesh.

Record Vector2u := { x : nat; y : nat }.

Inductive format := FormatRu16 | FormatRu32.

(** MeshAttribute(type, format, size): [size] slots, none written yet. *)
Abbreviation attribute := (list (option (nat * nat))).
Definition MeshAttribute (size : nat) : attribute := replicate size None.

(** attribute.set(index, value) *)
Definition attribute_set (index : nat) (p : nat * nat) (a : attribute)
  : Py.result attribute :=
  if decide (index < length a)%nat
  then Py.Ok (<[index := Some p]> a)
  else Py.Raise Py.OutOfRange.

(** MeshIndices(TypeQuadrilateral, format, size) *)
Abbreviation index_buffer := (list (option nat)).
Definition MeshIndices (size : nat) : index_buffer := replicate size None.

(** indices.set(index, i0, i1, i2, i3): four consecutive slots *)
Definition indices_set (index i0 i1 i2 i3 : nat) (b : index_buffer)
  : Py.result index_buffer :=
  if decide (index + 4 <= length b)%nat
  then Py.Ok (list_inserts index [Some i0; Some i1; Some i2; Some i3] b)
  else Py.Raise Py.OutOfRange.

Record attributes := {
  positions : attribute;
  normals : attribute;
  tangents : attribute;
  texcoords : attribute;
}.

Record mesh := {
  vertices : attributes;
  indices_format : format;
  indices : index_buffer;
}.

(** Lines 57-61: the four [set] calls and [vertex += 1]. *)
Definition set_vertex (p : nat * nat) (st : nat * attributes)
  : Py.result (nat * attributes) :=
  let '(vertex, a) := st in
  ps ← attribute_set vertex p (positions a);
  ns ← attribute_set vertex p (normals a);
  ts ← attribute_set vertex p (tangents a);
  tc ← attribute_set vertex p (texcoords a);
  mret (S vertex,
        {| positions := ps; normals := ns; tangents := ts; texcoords := tc |}).

(** Lines 74-76. *)
Definition set_quad (steps : Vector2u) (i j : nat) (st : nat * index_buffer)
  : Py.result (nat * index_buffer) :=
  let '(index, b) := st in
  let vertex := ((x steps + 1) * j + i)%nat in
  b' ← indices_set index vertex (vertex + 1) (vertex + x steps + 2)
                   (vertex + x steps + 1) b;
  mret ((index + 4)%nat, b').

Definition create_mesh `{Tellusimd} (steps : Vector2u) : Py.result mesh :=
  (* create vertices *)
  let num_vertices := ((x steps + 1) * (y steps + 1))%nat in
  let a := {| positions := MeshAttribute num_vertices;
              normals := MeshAttribute num_vertices;
              tangents := MeshAttribute num_vertices;
              texcoords := MeshAttribute num_vertices |} in
  va ← Py.for_range (y steps + 1) (fun j =>
          Py.for_range (x steps + 1) (fun i => set_vertex (i, j))) (0%nat, a);
  (* create indices *)
  let num_indices := (x steps * y steps * 4)%nat in
  let indices_format :=
    if decide (Z.of_nat num_vertices < Maxu16) then FormatRu16 else FormatRu32 in
  ib ← Py.for_range (y steps) (fun j =>
          Py.for_range (x steps) (fun i => set_quad steps i j))
        (0%nat, MeshIndices num_indices);
  mret {| vertices := va.2; indices_format := indices_format; indices := ib.2 |}.

End Mesh.

(** ** create_image (lines 97-116) *)
Module Image.

Record ImageColor := { r : Z; g : Z; b : Z; a : Z }.

(** ImageColor(v): every channel, alpha included, starts at [v]. *)
Definition ImageColor_new (v : Z) : ImageColor :=
  {| r := v; g := v; b := v; a := v |}.

(** A square RGBA image; a texel is [None] until it is written. *)
Record image := { size : nat; texels : list (option ImageColor) }.

(** image.create2D(FormatRGBAu8n, size) *)
Definition create2D (n : nat) : image :=
  {| size := n; texels := replicate (n * n) None |}.

(** sampler.set2D(x, y, color): stores a copy of the colour. *)
Definition set2D (x y : nat) (color : ImageColor) (img : image)
  : Py.result image :=
  if decide (x < size img ∧ y < size img)%nat
  then Py.Ok {| size := size img;
                texels := <[(y * size img + x)%nat := Some color]> (texels img) |}
  else Py.Raise Py.OutOfRange.

(** Line 110: [(((x - (frame ^ y)) ^ (y + (frame ^ x))) & 255) / 63.0] *)
Definition pattern (x y frame : Z) : Z :=
  Z.land (Z.lxor (x - Z.lxor frame y) (y + Z.lxor frame x)) 255.

Definition phase (x y frame : Z) : option Q :=
  Py.fdiv (inject_Z (pattern x y frame)) 63.

Section Channel.
Context `{Tellusimd} `{Libm}.

(** Lines 111-113: [int(math.cos(Pi * k + v) * 127.5 + 127.5)].
    math.cos raises ValueError on a value that is not finite, int()
    raises OverflowError on one. *)
Definition channel (k : Q) (v : option Q) : Py.result Z :=
  match (v' ← v; p ← Py.fmul Pi k; Py.fadd p v') with
  | None => Py.Raise Py.ValueError
  | Some s =>
      match (m ← Py.fmul (math_cos s) (255 # 2); Py.fadd m (255 # 2)) with
      | None => Py.Raise Py.OverflowError
      | Some t => Py.Ok (Py.int t)
      end
  end.

(** Lines 110-114: one texel; [color] is the one object reused by
    every iteration. *)
Definition fill_texel (frame : Z) (x y : nat) (st : ImageColor * image)
  : Py.result (ImageColor * image) :=
  let '(color, img) := st in
  let v := phase (Z.of_nat x) (Z.of_nat y) frame in
  cr ← channel 1 v;
  let color := {| r := cr; g := g color; b := b color; a := a color |} in
  cg ← channel (1 # 2) v;
  let color := {| r := r color; g := cg; b := b color; a := a color |} in
  cb ← channel 0 v;
  let color := {| r := r color; g := g color; b := cb; a := a color |} in
  img' ← set2D x y color img;
  mret (color, img').

Definition create_image (n : nat) (frame : Z) : Py.result image :=
  let img := create2D n in
  let color := ImageColor_new 255 in
  st ← Py.for_range n (fun y =>
          Py.for_range n (fun x => fill_texel frame x y)) (color, img);
  mret st.2.

(** The colour a texel receives, as a function of its position. *)
Definition texel_color (frame : Z) (x y : nat) : Py.result ImageColor :=
  let v := phase (Z.of_nat x) (Z.of_nat y) frame in
  cr ← channel 1 v; cg ← channel (1 # 2) v; cb ← channel 0 v;
  mret {| r := cr; g := cg; b := cb; a := 255 |}.

End Channel.

End Image.

(** ** Observable calls

    One constructor per native call of the code paths modelled below.
    Handles (device, target, compute, command, ...) and values derived
    from [Time.seconds()] are omitted; integer and float arguments computed
    by the Python code, and the boolean results it tests, are kept. *)
Inductive call :=
(* main_loop *)
| WindowUpdate
| WindowRender (ok : bool)
| RenderManagerUpdate
| RenderFrameCreate (width height : Z) (ok : bool)
| LogFrameResized (width height : Z)
| CreateImage (size : nat) (frame : Z)
| MaterialSetTexture
| MaterialUpdateScene
| NodeSetGlobalTransform
| NodeUpdateScene
| GraphUpdateSpatial
| GraphUpdateScene
| SceneCreate (ok : bool)
| SceneSetTime
| SceneUpdate
| SceneManagerUpdate (ok : bool)
| DeviceCreateCompute
| SceneManagerDispatch
| SceneDispatch
| SpatialDispatchFrames
| SpatialDispatchObjects
| RendererDispatchFrames
| ComputeRelease
| SceneManagerFlush
| RenderManagerFlush
| RenderFrameFlush
| RendererDrawDeferred
| RendererDispatchLight
| RendererDispatchOccluder
| RendererDispatchLuminance
| RendererDispatchComposite
| RectSetTexture
| RectSetTextureScale (sx sy : Q)
| RectSetTextureFlip (flip_x flip_y : bool)
| RootSetViewport (width height : Z)
| RootSetMouse (mouse_x mouse_y : Q) (buttons : Z)
| RootUpdate (again : bool)
| CanvasCreate
| TargetBegin (ok : bool)
| DeviceCreateCommand
| CommandSetPipeline
| CommandSetUniform
| CommandSetVertices
| CommandSetIndices
| CommandDrawElements (n : Z)
| CanvasDraw
| CommandRelease
| TargetEnd
| WindowPresent (ok : bool)
| DeviceCheck (ok : bool)
(* process_callback *)
| SceneManagerBool (valid : bool)
| SceneManagerIsTerminated (terminated : bool)
| SceneManagerProcess (progress : bool)
| TimeSleep (usec : Z)
| LogThreadDone
(* main *)
| AppCreate (ok : bool)
| WindowBool (valid : bool)
| WindowCreate (ok : bool)
| WindowSetHidden (ok : bool)
| DeviceBool (valid : bool)
| TargetBool (valid : bool)
| PipelineLoadShader (ok : bool)
| PipelineCreate (ok : bool)
| AsyncInit (ok : bool)
| SceneManagerCreate (ok : bool)
| ThreadStart
| RenderManagerCreate (ok : bool)
| WindowRun
| SceneManagerTerminate
| WindowFinish
| SceneClear
| ThreadJoin
| LogDone.

(** A call together with the line of [main.py] that makes it. *)
Record event := Ev { line : Z; what : call }.

(** ** Observations of a trace *)

(** The calls of a trace that satisfy [p], in order. *)
Fixpoint calls (p : call -> bool) (t : list event) : list call :=
  match t with
  | [] => []
  | e :: t' => if p (what e) then what e :: calls p t' else calls p t'
  end.

(** The calls made from lines [lo..hi], in order. *)
Fixpoint between (lo hi : Z) (t : list event) : list event :=
  match t with
  | [] => []
  | e :: t' =>
      if (lo <=? line e) && (line e <=? hi) then e :: between lo hi t'
      else between lo hi t'
  end.

(** The call that follows the first call satisfying [p]. *)
Fixpoint next_after (p : call -> bool) (t : list event) : option event :=
  match t with
  | [] => None
  | e :: t' => if p (what e) then head t' else next_after p t'
  end.

(** What precedes, and what follows, the first call satisfying [p]. *)
Fixpoint before_first (p : call -> bool) (t : list event) : list event :=
  match t with
  | [] => []
  | e :: t' => if p (what e) then [] else e :: before_first p t'
  end.

Fixpoint after_first (p : call -> bool) (t : list event) : list event :=
  match t with
  | [] => []
  | e :: t' => if p (what e) then t' else after_first p t'
  end.

(** ** main_loop (lines 344-491) *)
Module Frame.

(** What the collaborators answer during one iteration. *)
Record frame_env := {
  window_render : bool;           (* window.render() *)
  window_width : Z;               (* window.getWidth() *)
  window_height : Z;              (* window.getHeight() *)
  frame_create : bool;            (* render_frame.create(...) *)
  frame_failed : Z * Z;           (* size of render_frame after a failed create *)
  texture_due : bool;             (* Time.seconds() - texture_time > texture_ifps *)
  scene_create : bool;            (* scene.create(device, main_async) *)
  manager_update : bool;          (* scene_manager.update(device, main_async) *)
  app_height : Z;                 (* app.getHeight() *)
  mouse_x : Z;                    (* window.getMouseX() *)
  mouse_y : Z;                    (* window.getMouseY() *)
  mouse_buttons : Z;              (* window.getMouseButtons() *)
  target_flipped : bool;          (* render_renderer.isTargetFlipped() *)
  root_update : nat -> bool;      (* k-th root.update(...) of the iteration *)
  target_begin : bool;            (* target.begin() *)
  window_present : bool;          (* window.present() *)
  device_check : bool;            (* device.check() *)
}.

(** The variables an iteration reads and writes: the size of
    [render_frame], and the nonlocals [texture_frame] and [texture_time]
    (the latter as the number of [texture_ifps] added to it so far). *)
Record loop_state := {
  frame_width : Z;
  frame_height : Z;
  texture_frame : nat;
  texture_ticks : nat;
}.

Inductive outcome :=
| Returned (b : bool)      (* return b *)
| Raised (e : Py.exn)      (* an exception leaves main_loop *)
| Spinning.                (* still inside [while root.update(...)] *)

Inductive step (A : Type) :=
| Next (a : A)
| Stop (o : outcome).
Arguments Next {A} a.
Arguments Stop {A} o.

(** State, trace of calls, and early exit. *)
Definition M (A : Type) : Type := loop_state -> list event * loop_state * step A.

#[global] Instance M_ret : MRet M := fun _ a s => ([], s, Next a).
#[global] Instance M_bind : MBind M := fun _ _ f m s =>
  let '(t1, s1, r) := m s in
  match r with
  | Next a => let '(t2, s2, r2) := f a s1 in (t1 ++ t2, s2, r2)
  | Stop o => (t1, s1, Stop o)
  end.

Definition emit (l : Z) (c : call) : M unit := fun s => ([Ev l c], s, Next tt).
Definition stop {A} (o : outcome) : M A := fun s => ([], s, Stop o).
Definition get : M loop_state := fun s => ([], s, Next s).
Definition put (s : loop_state) : M unit := fun _ => ([], s, Next tt).
Definition lift {A} (r : Py.result A) : M A :=
  match r with
  | Py.Ok a => mret a
  | Py.Raise e => stop (Raised e)
  end.

(** [if not c(): return False] *)
Definition check (l : Z) (c : bool -> call) (ok : bool) : M unit :=
  emit l (c ok);; if ok then mret tt else stop (Returned false).

Section MainLoop.
Context `{Tellusimd} `{Libm}.
Variable env : frame_env.

(** Lines 361-364. *)
Definition resize_frame : M unit :=
  st ← get;
  if negb (frame_width st =? window_width env)
     || negb (frame_height st =? window_height env)
  then
    emit 363 (RenderFrameCreate (window_width env) (window_height env)
                                (frame_create env));;
    if frame_create env then
      put {| frame_width := window_width env;
             frame_height := window_height env;
             texture_frame := texture_frame st;
             texture_ticks := texture_ticks st |};;
      emit 364 (LogFrameResized (window_width env) (window_height env))
    else
      put {| frame_width := (frame_failed env).1;
             frame_height := (frame_failed env).2;
             texture_frame := texture_frame st;
             texture_ticks := texture_ticks st |};;
      stop (Returned false)
  else mret tt.

(** Lines 366-372. *)
Definition update_texture : M unit :=
  if texture_due env then
    st ← get;
    put {| frame_width := frame_width st; frame_height := frame_height st;
           texture_frame := texture_frame st;
           texture_ticks := S (texture_ticks st) |};;
    emit 369 (CreateImage 128 (Z.of_nat (texture_frame st)));;
    _ ← lift (Image.create_image 128 (Z.of_nat (texture_frame st)));
    emit 370 MaterialSetTexture;;
    emit 371 MaterialUpdateScene;;
    put {| frame_width := frame_width st; frame_height := frame_height st;
           texture_frame := S (texture_frame st);
           texture_ticks := S (texture_ticks st) |}
  else mret tt.

(** Lines 355-387: update scene. *)
Definition update_scene : M unit :=
  emit 359 RenderManagerUpdate;;
  resize_frame;;
  update_texture;;
  emit 376 NodeSetGlobalTransform;;
  emit 377 NodeUpdateScene;;
  emit 378 GraphUpdateSpatial;;
  emit 379 GraphUpdateScene;;
  check 382 SceneCreate (scene_create env);;
  emit 383 SceneSetTime;;
  emit 384 SceneUpdate;;
  check 387 SceneManagerUpdate (manager_update env).

(** Lines 389-404: dispatch. *)
Definition dispatch_scene : M unit :=
  emit 392 DeviceCreateCompute;;
  emit 395 SceneManagerDispatch;;
  emit 396 SceneDispatch;;
  emit 400 SpatialDispatchFrames;;
  emit 401 SpatialDispatchObjects;;
  emit 402 RendererDispatchFrames;;
  emit 404 ComputeRelease.

(** Lines 406-415: draw. *)
Definition draw_deferred : M unit :=
  emit 410 SceneManagerFlush;;
  emit 411 RenderManagerFlush;;
  emit 412 RenderFrameFlush;;
  emit 415 RendererDrawDeferred.

(** Lines 417-428: dispatch. *)
Definition dispatch_render : M unit :=
  emit 420 DeviceCreateCompute;;
  emit 423 RendererDispatchLight;;
  emit 424 RendererDispatchOccluder;;
  emit 425 RendererDispatchLuminance;;
  emit 426 RendererDispatchComposite;;
  emit 428 ComputeRelease.

(** Line 435: [math.floor(height * window.getWidth() / window.getHeight())] *)
Definition derived_width (height : Z) : Py.result Z :=
  q ← Py.truediv (height * window_width env) (window_height env);
  mret (Py.floor q).

(** Lines 440-442. *)
Definition mouse_button : Z :=
  let buttons := Control_ButtonNone in
  let buttons :=
    if Z.land (mouse_buttons env) Window_ButtonLeft =? 0 then buttons
    else Z.lor buttons Control_ButtonLeft in
  if Z.land (mouse_buttons env) Window_ButtonLeft2 =? 0 then buttons
  else Z.lor buttons Control_ButtonLeft.

(** Line 452: [while root.update(canvas.getScale(target)): pass] *)
Fixpoint update_controls (fuel k : nat) : M unit :=
  match fuel with
  | O => stop Spinning
  | S fuel' =>
      emit 452 (RootUpdate (root_update env k));;
      if root_update env k then update_controls fuel' (S k) else mret tt
  end.

(** Lines 430-455: update interface. *)
Definition update_interface (fuel : nat) : M unit :=
  let height := app_height env in
  width ← lift (derived_width height);
  mx ← lift (Py.truediv (width * mouse_x env) (window_width env));
  my ← lift (Py.truediv (height * mouse_y env) (window_height env));
  let buttons := mouse_button in
  emit 445 RectSetTexture;;
  sx ← lift (Py.truediv width (window_width env));
  sy ← lift (Py.truediv height (window_height env));
  emit 446 (RectSetTextureScale sx sy);;
  emit 447 (RectSetTextureFlip false (target_flipped env));;
  emit 450 (RootSetViewport width height);;
  emit 451 (RootSetMouse mx my buttons);;
  update_controls fuel 0;;
  emit 455 CanvasCreate.

(** Lines 457-483: window target. *)
Definition window_target : M unit :=
  emit 458 (TargetBegin (target_begin env));;
  if target_begin env then
    emit 460 DeviceCreateCommand;;
    emit 472 CommandSetPipeline;;
    emit 473 CommandSetUniform;;
    emit 474 CommandSetVertices;;
    emit 475 CommandSetIndices;;
    emit 476 (CommandDrawElements 3);;
    emit 479 CanvasDraw;;
    emit 481 CommandRelease;;
    emit 483 TargetEnd
  else mret tt.

Definition main_loop (fuel : nat) : M unit :=
  (* update window *)
  emit 350 WindowUpdate;;
  (* render window *)
  check 353 WindowRender (window_render env);;
  update_scene;;
  dispatch_scene;;
  draw_deferred;;
  dispatch_render;;
  update_interface fuel;;
  window_target;;
  (* present window *)
  check 486 WindowPresent (window_present env);;
  (* check device *)
  check 489 DeviceCheck (device_check env);;
  stop (Returned true).

End MainLoop.

(** One call of [main_loop]: the calls made, the state left behind and
    how the call ended. *)
Definition run `{Tellusimd} `{Libm} (fuel : nat) (env : frame_env)
    (st : loop_state) : list event * loop_state * outcome :=
  match main_loop env fuel st with
  | (t, st', Stop o) => (t, st', o)
  | (t, st', Next _) => (t, st', Returned true)
  end.

Definition trace `{Tellusimd} `{Libm} fuel env st : list event :=
  (run fuel env st).1.1.
Definition after `{Tellusimd} `{Libm} fuel env st : loop_state :=
  (run fuel env st).1.2.
Definition result `{Tellusimd} `{Libm} fuel env st : outcome :=
  (run fuel env st).2.

(** The phases of one iteration, by the block of [main_loop] a line
    belongs to. *)
Inductive phase :=
| PresentPoll      (* 349-353: update window, render window *)
| SceneUpdatePhase (* 355-387: update scene *)
| EarlyDispatch    (* 389-404: dispatch *)
| DeferredDraw     (* 406-415: draw *)
| LateDispatch     (* 417-428: dispatch *)
| UIUpdate         (* 430-455: update interface *)
| Present.         (* 457-489: window target, present window, check device *)

#[global] Instance phase_eq_dec : EqDecision phase.
Proof. solve_decision. Defined.

Definition phase_of_line (l : Z) : phase :=
  if l <=? 353 then PresentPoll
  else if l <=? 387 then SceneUpdatePhase
  else if l <=? 404 then EarlyDispatch
  else if l <=? 415 then DeferredDraw
  else if l <=? 428 then LateDispatch
  else if l <=? 455 then UIUpdate
  else Present.

Definition phase_of (e : event) : phase := phase_of_line (line e).

(** Consecutive repetitions merged: the sequence of phases entered. *)
Fixpoint phases (l : list phase) : list phase :=
  match l with
  | [] => []
  | p :: l' =>
      match phases l' with
      | q :: r => if decide (p = q) then q :: r else p :: q :: r
      | [] => [p]
      end
  end.

Definition all_phases : list phase :=
  [PresentPoll; SceneUpdatePhase; EarlyDispatch; DeferredDraw; LateDispatch;
   UIUpdate; Present].

Definition is_present (c : call) : bool :=
  match c with WindowPresent _ => true | _ => false end.

Definition is_late_pass (c : call) : bool :=
  match c with
  | RendererDispatchLight | RendererDispatchOccluder
  | RendererDispatchLuminance | RendererDispatchComposite => true
  | _ => false
  end.

Definition is_deferred_draw (c : call) : bool :=
  match c with RendererDrawDeferred => true | _ => false end.

Definition is_frame_create (c : call) : bool :=
  match c with RenderFrameCreate _ _ _ => true | _ => false end.

Definition is_resize_log (c : call) : bool :=
  match c with LogFrameResized _ _ => true | _ => false end.

Definition is_set_viewport (c : call) : bool :=
  match c with RootSetViewport _ _ => true | _ => false end.

Definition is_target_begin (c : call) : bool :=
  match c with TargetBegin _ => true | _ => false end.

(** The calls of [while root.update(...)]. *)
Definition is_root_update (e : event) : Prop :=
  line e = 452 /\ exists again, what e = RootUpdate again.

(** Lines 417-428 when they run to the end. *)
Definition late_group : list event :=
  [Ev 420 DeviceCreateCompute; Ev 423 RendererDispatchLight;
   Ev 424 RendererDispatchOccluder; Ev 425 RendererDispatchLuminance;
   Ev 426 RendererDispatchComposite; Ev 428 ComputeRelease].

(** Line 362: the render frame and the window disagree on a dimension. *)
Definition differs (env : frame_env) (st : loop_state) : bool :=
  negb (frame_width st =? window_width env)
  || negb (frame_height st =? window_height env).

End Frame.

(** ** process_callback (lines 272-275)

    The worker thread.  [fuel] bounds the number of evaluations of the
    loop condition that are observed; the second component of the result
    tells whether the function returned within them. *)
Module Worker.

Record worker_env := {
  manager_valid : nat -> bool;   (* bool(scene_manager), i-th evaluation *)
  is_terminated : nat -> bool;   (* scene_manager.isTerminated() *)
  process : nat -> bool;         (* scene_manager.process(process_async) *)
}.

(** Line 274: the body of the loop. *)
Definition iteration (env : worker_env) (i : nat) : list event :=
  Ev 274 (SceneManagerProcess (process env i))
  :: (if process env i then [] else [Ev 274 (TimeSleep 1000)]).

Fixpoint process_callback (env : worker_env) (fuel i : nat) : list event * bool :=
  match fuel with
  | O => ([], false)
  | S fuel' =>
      if manager_valid env i then
        if is_terminated env i then
          ([Ev 273 (SceneManagerBool true);
            Ev 273 (SceneManagerIsTerminated true);
            Ev 275 LogThreadDone], true)
        else
          let '(t, done) := process_callback env fuel' (S i) in
          (Ev 273 (SceneManagerBool true)
             :: Ev 273 (SceneManagerIsTerminated false)
             :: iteration env i ++ t, done)
      else
        ([Ev 273 (SceneManagerBool false); Ev 275 LogThreadDone], true)
  end.

(** The loop condition [scene_manager and not scene_manager.isTerminated()]
    at its i-th evaluation. *)
Definition continues (env : worker_env) (i : nat) : bool :=
  manager_valid env i && negb (is_terminated env i).

(** One full turn of the loop: condition true, then the body. *)
Definition round (env : worker_env) (i : nat) : list event :=
  Ev 273 (SceneManagerBool true)
  :: Ev 273 (SceneManagerIsTerminated false)
  :: iteration env i.

(** The last evaluation of the condition, and line 275. *)
Definition exit_calls (env : worker_env) (i : nat) : list event :=
  if manager_valid env i then
    [Ev 273 (SceneManagerBool true); Ev 273 (SceneManagerIsTerminated true);
     Ev 275 LogThreadDone]
  else [Ev 273 (SceneManagerBool false); Ev 275 LogThreadDone].

Definition is_terminated_seen (c : call) : bool :=
  match c with SceneManagerIsTerminated true => true | _ => false end.

Definition is_streaming_call (c : call) : bool :=
  match c with SceneManagerProcess _ | TimeSleep _ => true | _ => false end.

End Worker.

(** ** main (lines 121-512): setup and shutdown

    Only the calls that decide the control flow of [main], the start of
    the worker thread, the main loop and the shutdown calls are traced;
    the straight-line configuration between them is omitted.  The frames
    themselves run inside [window.run]. *)
Module Main.

Record setup_env := {
  app_create : bool;            (* line 125 *)
  window_valid : bool;          (* line 129 *)
  window_create : bool;         (* line 144 *)
  window_set_hidden : bool;     (* line 144 *)
  device_valid : bool;          (* line 148 *)
  target_valid : bool;          (* line 156 *)
  shader_vertex : bool;         (* line 181 *)
  shader_fragment : bool;       (* line 182 *)
  pipeline_create : bool;       (* line 183 *)
  main_async_init : bool;       (* line 253 *)
  process_async_init : bool;    (* line 257 *)
  scene_manager_create : bool;  (* line 266 *)
  render_manager_create : bool; (* line 288 *)
  final_update : bool;          (* line 503, result ignored *)
}.

(** A call, then the rest of the function. *)
Definition then_ (l : Z) (c : call) (rest : list event * Z) : list event * Z :=
  let '(t, code) := rest in (Ev l c :: t, code).

(** [if not c(): return 1], then the rest of the function. *)
Definition guard (l : Z) (c : bool -> call) (ok : bool)
    (rest : list event * Z) : list event * Z :=
  if ok then then_ l (c true) rest else ([Ev l (c false)], 1).

(** Lines 495-512. *)
Definition shutdown (env : setup_env) : list event * Z :=
  (* stop process thread *)
  then_ 496 SceneManagerTerminate (
  (* finish context *)
  then_ 499 WindowFinish (
  (* clear scene *)
  then_ 502 SceneClear (
  then_ 503 (SceneManagerUpdate (final_update env)) (
  then_ 504 WindowFinish (
  (* wait thread *)
  then_ 507 ThreadJoin (
  (* done *)
  then_ 510 LogDone ([], 0))))))).

Definition main (env : setup_env) : list event * Z :=
  guard 125 AppCreate (app_create env) (
  guard 129 WindowBool (window_valid env) (
  guard 144 WindowCreate (window_create env) (
  guard 144 WindowSetHidden (window_set_hidden env) (
  guard 148 DeviceBool (device_valid env) (
  guard 156 TargetBool (target_valid env) (
  guard 181 PipelineLoadShader (shader_vertex env) (
  guard 182 PipelineLoadShader (shader_fragment env) (
  guard 183 PipelineCreate (pipeline_create env) (
  guard 253 AsyncInit (main_async_init env) (
  guard 257 AsyncInit (process_async_init env) (
  guard 266 SceneManagerCreate (scene_manager_create env) (
  then_ 278 ThreadStart (
  guard 288 RenderManagerCreate (render_manager_create env) (
  then_ 493 WindowRun (
  shutdown env))))))))))))))).

Definition is_join (c : call) : bool :=
  match c with ThreadJoin => true | _ => false end.

Definition is_terminate (c : call) : bool :=
  match c with SceneManagerTerminate => true | _ => false end.

End Main.

(** ** Sample collaborators

    Concrete values for the external constants and collaborator answers,
    used to run the model on explicit inputs. *)
Module Sample.

(** The double nearest to pi, and the usual values of the constants. *)
Definition consts : Tellusimd := {|
  Pi := 7074237752028440 # 2251799813685248;
  Maxu16 := 65535;
  Window_ButtonLeft := 1;
  Window_ButtonLeft2 := 2;
  Control_ButtonNone := 0;
  Control_ButtonLeft := 1;
|}.

(** A cosine that stays in [-1, 1]: the clipped Taylor polynomial of
    degree four. *)
Definition clipped_cos (x : Q) : Q :=
  let c := (1 - x * x / 2 + x * x * x * x / 24)%Q in
  if Qle_bool c (-1) then (-1)%Q else if Qle_bool 1 c then 1%Q else c.

Definition libm : Libm := {| math_cos := clipped_cos |}.

(** A frame in which every collaborator succeeds: a [w] x [h] window and
    an interface of logical height [ui]. *)
Definition frame (w h ui : Z) : Frame.frame_env := {|
  Frame.window_render := true;
  Frame.window_width := w;
  Frame.window_height := h;
  Frame.frame_create := true;
  Frame.frame_failed := (0, 0);
  Frame.texture_due := false;
  Frame.scene_create := true;
  Frame.manager_update := true;
  Frame.app_height := ui;
  Frame.mouse_x := 640;
  Frame.mouse_y := 360;
  Frame.mouse_buttons := 0;
  Frame.target_flipped := false;
  Frame.root_update := fun k => (k <? 1)%nat;
  Frame.target_begin := true;
  Frame.window_present := true;
  Frame.device_check := true;
|}.

(** A 1280x720 window with a 900-line interface. *)
Definition healthy : Frame.frame_env := frame 1280 720 900.

(** The same frame with one collaborator failing. *)
Definition device_lost : Frame.frame_env := {|
  Frame.window_render := true;
  Frame.window_width := 1280;
  Frame.window_height := 720;
  Frame.frame_create := true;
  Frame.frame_failed := (0, 0);
  Frame.texture_due := false;
  Frame.scene_create := true;
  Frame.manager_update := true;
  Frame.app_height := 900;
  Frame.mouse_x := 640;
  Frame.mouse_y := 360;
  Frame.mouse_buttons := 0;
  Frame.target_flipped := false;
  Frame.root_update := fun k => (k <? 1)%nat;
  Frame.target_begin := true;
  Frame.window_present := true;
  Frame.device_check := false;
|}.

Definition surface_busy : Frame.frame_env := {|
  Frame.window_render := true;
  Frame.window_width := 1280;
  Frame.window_height := 720;
  Frame.frame_create := true;
  Frame.frame_failed := (0, 0);
  Frame.texture_due := false;
  Frame.scene_create := true;
  Frame.manager_update := true;
  Frame.app_height := 900;
  Frame.mouse_x := 640;
  Frame.mouse_y := 360;
  Frame.mouse_buttons := 0;
  Frame.target_flipped := false;
  Frame.root_update := fun k => (k <? 1)%nat;
  Frame.target_begin := false;
  Frame.window_present := true;
  Frame.device_check := true;
|}.

(** Before the first frame: [render_frame] not created yet. *)
Definition fresh : Frame.loop_state := {|
  Frame.frame_width := 0;
  Frame.frame_height := 0;
  Frame.texture_frame := 0;
  Frame.texture_ticks := 0;
|}.

(** A worker whose manager handle is already invalid at the first test. *)
Definition invalid_manager : Worker.worker_env := {|
  Worker.manager_valid := fun _ => false;
  Worker.is_terminated := fun _ => false;
  Worker.process := fun _ => false;
|}.

(** A worker that is terminated at its third test; the first call to
    [process] makes progress, the second does not. *)
Definition terminated_at_2 : Worker.worker_env := {|
  Worker.manager_valid := fun _ => true;
  Worker.is_terminated := fun i => (2 <=? i)%nat;
  Worker.process := fun i => (i <? 1)%nat;
|}.

Definition all_ok : Main.setup_env := {|
  Main.app_create := true;
  Main.window_valid := true;
  Main.window_create := true;
  Main.window_set_hidden := true;
  Main.device_valid := true;
  Main.target_valid := true;
  Main.shader_vertex := true;
  Main.shader_fragment := true;
  Main.pipeline_create := true;
  Main.main_async_init := true;
  Main.process_async_init := true;
  Main.scene_manager_create := true;
  Main.render_manager_create := true;
  Main.final_update := true;
|}.

End Sample.

(** ** Loop invariants

    What holds after [k] iterations of the loops of [create_mesh] and
    [create_image]. *)
Module Inv.

(** Slots below [k] hold the grid point of their index. *)
Definition written (steps : Mesh.Vector2u) (k : nat) (a : list (option (nat * nat)))
  : Prop :=
  length a = ((Mesh.x steps + 1) * (Mesh.y steps + 1))%nat /\
  forall v, (v < k)%nat ->
    a !! v = Some (Some (v mod (Mesh.x steps + 1), v / (Mesh.x steps + 1))%nat).

Definition vertices (steps : Mesh.Vector2u) (k : nat) (st : nat * Mesh.attributes)
  : Prop :=
  st.1 = k /\ written steps k (Mesh.positions st.2) /\
  written steps k (Mesh.normals st.2) /\ written steps k (Mesh.tangents st.2) /\
  written steps k (Mesh.texcoords st.2).

(** Slots below [4 * k] hold a vertex index below the vertex count. *)
Definition quads (steps : Mesh.Vector2u) (k : nat) (b : list (option nat)) : Prop :=
  length b = (Mesh.x steps * Mesh.y steps * 4)%nat /\
  forall p, (p < 4 * k)%nat ->
    exists v, b !! p = Some (Some v) /\
              (v < (Mesh.x steps + 1) * (Mesh.y steps + 1))%nat.

Definition indices (steps : Mesh.Vector2u) (k : nat) (st : nat * list (option nat))
  : Prop :=
  st.1 = (4 * k)%nat /\ quads steps k st.2.

Definition byte_color (c : Image.ImageColor) : Prop :=
  0 <= Image.r c <= 255 /\ 0 <= Image.g c <= 255 /\ 0 <= Image.b c <= 255 /\
  Image.a c = 255.

(** Texels below [k] hold the colour of their position; the shared
    colour object still has its initial alpha. *)
Definition painted `{Tellusimd} `{Libm} (n : nat) (frame : Z) (k : nat)
    (st : Image.ImageColor * Image.image) : Prop :=
  Image.a st.1 = 255 /\ Image.size st.2 = n /\
  length (Image.texels st.2) = (n * n)%nat /\
  forall p, (p < k)%nat ->
    exists c, Image.texels st.2 !! p = Some (Some c) /\
              Image.texel_color frame (p mod n)%nat (p / n)%nat = Py.Ok c.

End Inv.

(** ** Further observations and invariants

    Names for the calls and the loop states that the properties of the
    remaining paths of [main.py] speak about. *)
Module Obs.

(** The four vertex indices of the quad at grid cell [(i, j)], in the
    order of line 75. *)
Definition corners (steps : Mesh.Vector2u) (i j : nat) : list nat :=
  let vertex := ((Mesh.x steps + 1) * j + i)%nat in
  [vertex; (vertex + 1)%nat; (vertex + Mesh.x steps + 2)%nat;
   (vertex + Mesh.x steps + 1)%nat].

(** The quads below [k] are in place in the index buffer. *)
Definition quads_exact (steps : Mesh.Vector2u) (k : nat) (b : list (option nat))
  : Prop :=
  length b = (Mesh.x steps * Mesh.y steps * 4)%nat /\
  forall q c v, (q < k)%nat ->
    corners steps (q mod Mesh.x steps) (q / Mesh.x steps) !! c = Some v ->
    b !! (4 * q + c)%nat = Some (Some v).

Definition indices_exact (steps : Mesh.Vector2u) (k : nat)
    (st : nat * list (option nat)) : Prop :=
  st.1 = (4 * k)%nat /\ quads_exact steps k st.2.

Definition is_compute_scope (c : call) : bool :=
  match c with DeviceCreateCompute | ComputeRelease => true | _ => false end.

Definition is_bracket (c : call) : bool :=
  match c with TargetBegin _ | TargetEnd => true | _ => false end.

Definition is_set_texture (c : call) : bool :=
  match c with MaterialSetTexture => true | _ => false end.

Definition is_create_image (c : call) : bool :=
  match c with CreateImage _ _ => true | _ => false end.

Definition is_root_update_call (c : call) : bool :=
  match c with RootUpdate _ => true | _ => false end.

Definition is_interface_call (c : call) : bool :=
  match c with
  | RectSetTexture | RectSetTextureScale _ _ | RectSetTextureFlip _ _
  | RootSetViewport _ _ | RootSetMouse _ _ _ | RootUpdate _ | CanvasCreate => true
  | _ => false
  end.

Definition is_set_mouse (c : call) : bool :=
  match c with RootSetMouse _ _ _ => true | _ => false end.

Definition is_thread_start (c : call) : bool :=
  match c with ThreadStart => true | _ => false end.

Definition is_window_run (c : call) : bool :=
  match c with WindowRun => true | _ => false end.

Definition is_thread_done (c : call) : bool :=
  match c with LogThreadDone => true | _ => false end.

Definition is_sleep (c : call) : bool :=
  match c with TimeSleep _ => true | _ => false end.

(** A [scene_manager.process] call that made no progress. *)
Definition is_stall (c : call) : bool :=
  match c with SceneManagerProcess false => true | _ => false end.

(** A setup step of [main] that answered False. *)
Definition is_setup_failure (c : call) : bool :=
  match c with
  | AppCreate false | WindowBool false | WindowCreate false
  | WindowSetHidden false | DeviceBool false | TargetBool false
  | PipelineLoadShader false | PipelineCreate false | AsyncInit false
  | SceneManagerCreate false | RenderManagerCreate false => true
  | _ => false
  end.

(** Lines 460-483 when [target.begin()] succeeded. *)
Definition draw_group : list event :=
  [Ev 460 DeviceCreateCommand; Ev 472 CommandSetPipeline;
   Ev 473 CommandSetUniform; Ev 474 CommandSetVertices;
   Ev 475 CommandSetIndices; Ev 476 (CommandDrawElements 3);
   Ev 479 CanvasDraw; Ev 481 CommandRelease; Ev 483 TargetEnd].

(** Line 452 when [root.update] answers True [n] times and then False. *)
Definition controls_trace (n : nat) : list event :=
  replicate n (Ev 452 (RootUpdate true)) ++ [Ev 452 (RootUpdate false)].

(** [n] is the first index at which [f] answers False. *)
Definition first_false (f : nat -> bool) (n : nat) : Prop :=
  f n = false /\ forall j, (j < n)%nat -> f j = true.

(** Every setup step of [main] up to and including [scene_manager.create]
    succeeds (lines 125-266). *)
Definition setup_to_thread (env : Main.setup_env) : bool :=
  Main.app_create env && Main.window_valid env && Main.window_create env
  && Main.window_set_hidden env && Main.device_valid env
  && Main.target_valid env && Main.shader_vertex env
  && Main.shader_fragment env && Main.pipeline_create env
  && Main.main_async_init env && Main.process_async_init env
  && Main.scene_manager_create env.

(** The values of a frame environment that enter the arithmetic of the
    UI update are 32-bit. *)
Definition int32_inputs (env : Frame.frame_env) : Prop :=
  Z.abs (Frame.app_height env) <= 2 ^ 32 /\
  Z.abs (Frame.window_width env) <= 2 ^ 32 /\
  Z.abs (Frame.mouse_x env) <= 2 ^ 32 /\
  Z.abs (Frame.mouse_y env) <= 2 ^ 32.

End Obs.

(** ** Further scenarios *)
Module Scenario.

(** A window minimised to zero width. *)
Definition minimised : Frame.frame_env := Sample.frame 0 720 900.

(** Two windows of the same height and different widths. *)
Definition narrow : Frame.frame_env := Sample.frame 1280 720 900.
Definition wide : Frame.frame_env := Sample.frame 1920 720 900.

(** A frame whose [root.update] never answers False. *)
Definition stuck_interface : Frame.frame_env := {|
  Frame.window_render := true;
  Frame.window_width := 1280;
  Frame.window_height := 720;
  Frame.frame_create := true;
  Frame.frame_failed := (0, 0);
  Frame.texture_due := false;
  Frame.scene_create := true;
  Frame.manager_update := true;
  Frame.app_height := 900;
  Frame.mouse_x := 640;
  Frame.mouse_y := 360;
  Frame.mouse_buttons := 0;
  Frame.target_flipped := false;
  Frame.root_update := fun _ => true;
  Frame.target_begin := true;
  Frame.window_present := true;
  Frame.device_check := true;
|}.

(** A 2 x 2 grid. *)
Definition grid : Mesh.Vector2u := {| Mesh.x := 2; Mesh.y := 2 |}.

End Scenario.

(** * Part 2: proofs *)

(** ** Rounding to binary64 *)

Ltac qcmp :=
  repeat match goal with
  | H : Qcompare _ _ = Eq |- _ => rewrite <- Qeq_alt in H
  | H : Qcompare _ _ = Lt |- _ => rewrite <- Qlt_alt in H
  | H : Qcompare _ _ = Gt |- _ => rewrite <- Qgt_alt in H
  end.

Section PyFacts.
Import Py.

Lemma pow2_pos k : (0 < pow2 k)%Q.
Proof. apply Qpower_0_lt. reflexivity. Qed.

Lemma pow2_add a b : (pow2 (a + b) == pow2 a * pow2 b)%Q.
Proof. apply Qpower_plus. discriminate. Qed.

Lemma pow2_le a b : a <= b -> (pow2 a <= pow2 b)%Q.
Proof. intros H. apply Qpower_le_compat_l; [exact H | discriminate]. Qed.

Lemma pow2_lt a b : a < b -> (pow2 a < pow2 b)%Q.
Proof. intros H. apply Qpower_lt_compat_l; [exact H | reflexivity]. Qed.

Lemma pow2_Z k : 0 <= k -> (pow2 k == inject_Z (2 ^ k))%Q.
Proof. intros H. unfold pow2. rewrite Zpower_Qpower by exact H. reflexivity. Qed.

Lemma pow2_succ k : (pow2 (k + 1) == 2 * pow2 k)%Q.
Proof. rewrite pow2_add. change (pow2 1) with 2%Q. ring. Qed.

Lemma pow2_lt_inv a b : (pow2 a < pow2 b)%Q -> a < b.
Proof.
  intros H. destruct (Z_lt_le_dec a b) as [L|L]; [exact L|].
  apply pow2_le in L. lra.
Qed.

(* floor facts *)
Lemma Qfloor_bounds x : (inject_Z (Qfloor x) <= x < inject_Z (Qfloor x) + 1)%Q.
Proof.
  split; [apply Qfloor_le|].
  pose proof (Qlt_floor x) as H. rewrite inject_Z_plus in H. exact H.
Qed.

Lemma Qfloor_unique x n : (inject_Z n <= x < inject_Z n + 1)%Q -> Qfloor x = n.
Proof.
  intros [H1 H2]. destruct (Qfloor_bounds x) as [F1 F2].
  assert (A : n < Qfloor x + 1).
  { rewrite Zlt_Qlt, inject_Z_plus. change (inject_Z 1) with 1%Q. lra. }
  assert (B : Qfloor x < n + 1).
  { rewrite Zlt_Qlt, inject_Z_plus. change (inject_Z 1) with 1%Q. lra. }
  lia.
Qed.

Lemma rhe_bounds x : Qfloor x <= rhe x <= Qfloor x + 1.
Proof.
  unfold rhe. cbv zeta. generalize (Qfloor x) as f. intros f.
  destruct (Qcompare _ _); [destruct (Z.even f); lia | lia | lia].
Qed.

Lemma rhe_Z n : rhe (inject_Z n) = n.
Proof.
  unfold rhe. cbv zeta. rewrite Qfloor_Z.
  replace (Qcompare (inject_Z n - inject_Z n) (1 # 2)) with Lt; [reflexivity|].
  symmetry. rewrite <- Qlt_alt. generalize (inject_Z n). intros q. lra.
Qed.

Lemma rhe_comp x y : (x == y)%Q -> rhe x = rhe y.
Proof.
  intros E. unfold rhe. cbv zeta.
  assert (F : Qfloor x = Qfloor y) by (rewrite E; reflexivity).
  rewrite F.
  assert (C : Qcompare (x - inject_Z (Qfloor y)) (1 # 2) = Qcompare (y - inject_Z (Qfloor y)) (1 # 2)).
  { apply Qcompare_comp; [rewrite E; reflexivity | reflexivity]. }
  rewrite C. reflexivity.
Qed.

Lemma rhe_mono x y : (x <= y)%Q -> rhe x <= rhe y.
Proof.
  intros L. pose proof (Qfloor_resp_le _ _ L) as F.
  pose proof (rhe_bounds x) as Bx. pose proof (rhe_bounds y) as By.
  destruct (Z.eq_dec (Qfloor x) (Qfloor y)) as [E|N]; [|lia].
  unfold rhe in *. cbv zeta in *. rewrite E in *.
  destruct (Qcompare (x - inject_Z (Qfloor y)) (1 # 2)) eqn:Cx;
  destruct (Qcompare (y - inject_Z (Qfloor y)) (1 # 2)) eqn:Cy;
  try (destruct (Z.even (Qfloor y))); try lia; exfalso; qcmp; lra.
Qed.

Lemma ilog2_spec x : (0 < x)%Q -> (pow2 (ilog2 x) <= x < pow2 (ilog2 x + 1))%Q.
Proof.
  intros Hx. destruct x as [p d].
  assert (Hp : 0 < p) by (unfold Qlt in Hx; simpl in Hx; lia).
  unfold ilog2. cbn [Qnum Qden].
  set (lp := Z.log2 p). set (ld := Z.log2 (Zpos d)).
  destruct (Z.log2_spec p Hp) as [P1 P2]. fold lp in P1, P2.
  destruct (Z.log2_spec (Zpos d) (Pos2Z.is_pos d)) as [D1 D2]. fold ld in D1, D2.
  assert (Lp : 0 <= lp) by apply Z.log2_nonneg.
  assert (Ld : 0 <= ld) by apply Z.log2_nonneg.
  rewrite Zle_Qle, <- pow2_Z in P1, D1 by lia.
  rewrite Zlt_Qlt, <- pow2_Z in P2, D2 by lia.
  replace (Z.succ lp) with (lp + 1) in P2 by lia.
  replace (Z.succ ld) with (ld + 1) in D2 by lia.
  assert (E : ((p # d) * inject_Z (Zpos d) == inject_Z p)%Q).
  { rewrite (Qmake_Qdiv p d). field. discriminate. }
  pose proof (pow2_pos ld) as Pld. pose proof (pow2_pos (ld + 1)) as Pld1.
  assert (A : ((p # d) < pow2 (lp - ld + 1))%Q).
  { apply (Qmult_lt_r _ _ (pow2 ld) Pld).
    rewrite <- pow2_add. replace (lp - ld + 1 + ld) with (lp + 1) by lia.
    apply Qle_lt_trans with ((p # d) * inject_Z (Zpos d))%Q; [|rewrite E; exact P2].
    apply Qmult_le_l; [exact Hx | exact D1]. }
  assert (B : (pow2 (lp - ld - 1) < (p # d))%Q).
  { apply (Qmult_lt_r _ _ (pow2 (ld + 1)) Pld1).
    rewrite <- pow2_add. replace (lp - ld - 1 + (ld + 1)) with lp by lia.
    apply Qle_lt_trans with ((p # d) * inject_Z (Zpos d))%Q; [rewrite E; exact P1|].
    apply Qmult_lt_l; [exact Hx | exact D2]. }
  destruct (Qle_bool (pow2 (lp - ld)) (p # d)) eqn:T.
  - apply Qle_bool_iff in T. split; [exact T | exact A].
  - replace (lp - ld - 1 + 1) with (lp - ld) by lia. split; [apply Qlt_le_weak, B|].
    apply Qnot_le_lt. intros C. apply Qle_bool_iff in C. congruence.
Qed.

Lemma ilog2_unique x e : (pow2 e <= x < pow2 (e + 1))%Q -> ilog2 x = e.
Proof.
  intros [H1 H2].
  assert (Hx : (0 < x)%Q) by (pose proof (pow2_pos e); lra).
  destruct (ilog2_spec x Hx) as [S1 S2].
  assert (A : e < ilog2 x + 1) by (apply pow2_lt_inv; lra).
  assert (B : ilog2 x < e + 1) by (apply pow2_lt_inv; lra).
  lia.
Qed.

Lemma ilog2_comp x y : (0 < x)%Q -> (x == y)%Q -> ilog2 x = ilog2 y.
Proof.
  intros Hx E. symmetry. apply ilog2_unique. rewrite <- E. apply ilog2_spec, Hx.
Qed.

Lemma ilog2_mono x y : (0 < x)%Q -> (x <= y)%Q -> ilog2 x <= ilog2 y.
Proof.
  intros Hx L. destruct (ilog2_spec x Hx) as [X1 X2].
  destruct (ilog2_spec y) as [Y1 Y2]; [lra|].
  assert (ilog2 x < ilog2 y + 1) by (apply pow2_lt_inv; lra). lia.
Qed.

Lemma pow2_div a b : (pow2 a / pow2 b == pow2 (a - b))%Q.
Proof.
  replace (a - b) with (a + - b) by lia. rewrite pow2_add.
  unfold pow2 at 4. rewrite Qpower_opp. reflexivity.
Qed.

Lemma div_pow2_le x y k : (x <= y)%Q -> (x / pow2 k <= y / pow2 k)%Q.
Proof.
  intros L. unfold Qdiv. apply Qmult_le_compat_r; [exact L|].
  apply Qlt_le_weak, Qinv_lt_0_compat, pow2_pos.
Qed.

Lemma round_pos_comp x y : (0 < x)%Q -> (x == y)%Q -> (round_pos x == round_pos y)%Q.
Proof.
  intros Hx E. unfold round_pos, ulp_exp. cbv zeta.
  rewrite (ilog2_comp x y Hx E).
  rewrite (rhe_comp (x / pow2 (Z.max (ilog2 y - 52) (-1074)))%Q (y / pow2 (Z.max (ilog2 y - 52) (-1074)))%Q).
  - reflexivity.
  - rewrite E. reflexivity.
Qed.

Lemma round_pos_nonneg x : (0 < x)%Q -> (0 <= round_pos x)%Q.
Proof.
  intros Hx. unfold round_pos. cbv zeta.
  apply Qmult_le_0_compat; [|apply Qlt_le_weak, pow2_pos].
  change 0%Q with (inject_Z 0). rewrite <- Zle_Qle.
  rewrite <- (rhe_Z 0). apply rhe_mono.
  change (inject_Z 0) with 0%Q.
  apply Qlt_le_weak, Qlt_shift_div_l; [apply pow2_pos | lra].
Qed.

Lemma round_pos_upper x : (0 < x)%Q -> (round_pos x <= pow2 (ilog2 x + 1))%Q.
Proof.
  intros Hx. destruct (ilog2_spec x Hx) as [_ S2].
  unfold round_pos. cbv zeta. set (k := ulp_exp x).
  pose proof (pow2_pos k) as Pk.
  assert (D : (x / pow2 k <= pow2 (ilog2 x + 1 - k))%Q).
  { rewrite <- pow2_div. apply div_pow2_le. lra. }
  destruct (Z_le_gt_dec k (ilog2 x + 1)) as [L|G].
  - rewrite (pow2_Z (ilog2 x + 1 - k)) in D by lia. apply rhe_mono in D. rewrite rhe_Z in D.
    rewrite Zle_Qle, <- (pow2_Z (ilog2 x + 1 - k)) in D by lia.
    assert (Ep : (pow2 (ilog2 x + 1) == pow2 (ilog2 x + 1 - k) * pow2 k)%Q).
    { rewrite <- pow2_add. replace (ilog2 x + 1 - k + k) with (ilog2 x + 1) by lia. reflexivity. }
    rewrite Ep. apply Qmult_le_compat_r; [exact D | lra].
  - assert (D' : (x / pow2 k <= 1 # 2)%Q).
    { eapply Qle_trans; [exact D|]. change (1 # 2)%Q with (pow2 (-1)). apply pow2_le. lia. }
    apply rhe_mono in D'. change (rhe (1 # 2)%Q) with 0 in D'.
    rewrite Zle_Qle in D'. pose proof (pow2_pos (ilog2 x + 1)).
    assert (inject_Z (rhe (x / pow2 k)) * pow2 k <= 0 * pow2 k)%Q
      by (apply Qmult_le_compat_r; [exact D' | lra]).
    lra.
Qed.

Lemma round_pos_lower x : (0 < x)%Q -> ulp_exp x <= ilog2 x -> (pow2 (ilog2 x) <= round_pos x)%Q.
Proof.
  intros Hx L. destruct (ilog2_spec x Hx) as [S1 _].
  unfold round_pos. cbv zeta. set (k := ulp_exp x) in *.
  pose proof (pow2_pos k) as Pk.
  assert (D : (pow2 (ilog2 x - k) <= x / pow2 k)%Q).
  { rewrite <- pow2_div. apply div_pow2_le. exact S1. }
  rewrite (pow2_Z (ilog2 x - k)) in D by lia. apply rhe_mono in D. rewrite rhe_Z in D.
  rewrite Zle_Qle, <- (pow2_Z (ilog2 x - k)) in D by lia.
  assert (Ep : (pow2 (ilog2 x) == pow2 (ilog2 x - k) * pow2 k)%Q).
  { rewrite <- pow2_add. replace (ilog2 x - k + k) with (ilog2 x) by lia. reflexivity. }
  rewrite Ep. apply Qmult_le_compat_r; [exact D | lra].
Qed.

Lemma round_pos_mono x y : (0 < x)%Q -> (x <= y)%Q -> (round_pos x <= round_pos y)%Q.
Proof.
  intros Hx L. assert (Hy : (0 < y)%Q) by lra.
  pose proof (ilog2_mono x y Hx L) as M.
  destruct (Z.eq_dec (ulp_exp x) (ulp_exp y)) as [E|N].
  - unfold round_pos. cbv zeta. rewrite E.
    apply Qmult_le_compat_r; [|apply Qlt_le_weak, pow2_pos].
    rewrite <- Zle_Qle. apply rhe_mono, div_pow2_le, L.
  - assert (A : ilog2 x + 1 <= ilog2 y /\ ulp_exp y <= ilog2 y) by (unfold ulp_exp in *; lia).
    destruct A as [A1 A2].
    eapply Qle_trans; [apply round_pos_upper, Hx|].
    eapply Qle_trans; [apply pow2_le, A1|].
    apply round_pos_lower; assumption.
Qed.

Lemma round_pos_exact m j :
  0 < m < 2 ^ 53 -> -1074 <= j -> (round_pos (inject_Z m * pow2 j) == inject_Z m * pow2 j)%Q.
Proof.
  intros [M1 M2] J.
  destruct (Z.log2_spec m M1) as [L1 L2].
  assert (L0 : 0 <= Z.log2 m) by apply Z.log2_nonneg.
  assert (L52 : Z.log2 m <= 52).
  { destruct (Z_le_gt_dec (Z.log2 m) 52) as [?|G]; [assumption|].
    assert (2 ^ 53 <= 2 ^ Z.log2 m) by (apply Z.pow_le_mono_r; lia). lia. }
  pose proof (pow2_pos j) as Pj.
  assert (E : ilog2 (inject_Z m * pow2 j)%Q = Z.log2 m + j).
  { apply ilog2_unique. split.
    - rewrite pow2_add. apply Qmult_le_compat_r; [|lra].
      rewrite pow2_Z by lia. rewrite <- Zle_Qle. exact L1.
    - replace (Z.log2 m + j + 1) with ((Z.log2 m + 1) + j) by lia.
      rewrite pow2_add. apply Qmult_lt_r; [exact Pj|].
      rewrite pow2_Z by lia. rewrite <- Zlt_Qlt. exact L2. }
  unfold round_pos, ulp_exp. cbv zeta. rewrite E.
  set (k := Z.max (Z.log2 m + j - 52) (-1074)).
  assert (K : k <= j) by (unfold k; lia).
  assert (D : (inject_Z m * pow2 j / pow2 k == inject_Z (m * 2 ^ (j - k)))%Q).
  { rewrite inject_Z_mult, <- pow2_Z by lia. rewrite <- pow2_div.
    field. pose proof (pow2_pos k). lra. }
  rewrite (rhe_comp _ _ D), rhe_Z.
  rewrite inject_Z_mult, <- pow2_Z by lia.
  rewrite <- Qmult_assoc, <- pow2_add. replace (j - k + k) with j by lia. reflexivity.
Qed.

Lemma round64_pos x : (0 < x)%Q -> round64 x = round_pos x.
Proof. intros H. unfold round64. rewrite (proj1 (Qgt_alt x 0) H). reflexivity. Qed.

Lemma round64_neg x : (x < 0)%Q -> round64 x = (- round_pos (- x))%Q.
Proof. intros H. unfold round64. rewrite (proj1 (Qlt_alt x 0) H). reflexivity. Qed.

Lemma round64_zero x : (x == 0)%Q -> round64 x = 0%Q.
Proof. intros H. unfold round64. rewrite (proj1 (Qeq_alt x 0) H). reflexivity. Qed.

Lemma round64_sign_cases x :
  ((x < 0)%Q /\ round64 x = (- round_pos (- x))%Q) \/
  ((x == 0)%Q /\ round64 x = 0%Q) \/
  ((0 < x)%Q /\ round64 x = round_pos x).
Proof.
  destruct (Q_dec x 0) as [[L|G]|E].
  - left. split; [exact L | apply round64_neg, L].
  - right. right. split; [exact G | apply round64_pos, G].
  - right. left. split; [exact E | apply round64_zero, E].
Qed.

Lemma round64_comp x y : (x == y)%Q -> (round64 x == round64 y)%Q.
Proof.
  intros E.
  destruct (round64_sign_cases x) as [[Sx Rx]|[[Sx Rx]|[Sx Rx]]];
  destruct (round64_sign_cases y) as [[Sy Ry]|[[Sy Ry]|[Sy Ry]]];
  rewrite Rx, Ry; try (exfalso; lra); try reflexivity.
  - apply Qopp_comp. apply round_pos_comp; [lra | rewrite E; reflexivity].
  - apply round_pos_comp; assumption.
Qed.

Lemma round64_mono x y : (x <= y)%Q -> (round64 x <= round64 y)%Q.
Proof.
  intros L.
  destruct (round64_sign_cases x) as [[Sx Rx]|[[Sx Rx]|[Sx Rx]]];
  destruct (round64_sign_cases y) as [[Sy Ry]|[[Sy Ry]|[Sy Ry]]];
  rewrite Rx, Ry; try (exfalso; lra); try lra.
  - assert (M : (round_pos (- y) <= round_pos (- x))%Q) by (apply round_pos_mono; lra). lra.
  - assert (M : (0 <= round_pos (- x))%Q) by (apply round_pos_nonneg; lra). lra.
  - assert (M : (0 <= round_pos (- x))%Q) by (apply round_pos_nonneg; lra).
    assert (N : (0 <= round_pos y)%Q) by (apply round_pos_nonneg; lra). lra.
  - apply round_pos_nonneg; lra.
  - apply round_pos_mono; assumption.
Qed.

Lemma round64_exact m j :
  - 2 ^ 53 < m < 2 ^ 53 -> -1074 <= j ->
  (round64 (inject_Z m * pow2 j) == inject_Z m * pow2 j)%Q.
Proof.
  intros M J. pose proof (pow2_pos j) as Pj.
  destruct (Z.lt_trichotomy m 0) as [N|[Z0|P]].
  - assert (S : (inject_Z m * pow2 j < 0)%Q).
    { assert (I : (inject_Z m < 0)%Q) by (change 0%Q with (inject_Z 0); rewrite <- Zlt_Qlt; exact N).
      setoid_replace 0%Q with (0 * pow2 j)%Q using relation Qeq by ring. apply Qmult_lt_r; assumption. }
    rewrite (round64_neg _ S).
    assert (E : (- (inject_Z m * pow2 j) == inject_Z (- m) * pow2 j)%Q)
      by (rewrite inject_Z_opp; ring).
    assert (S' : (0 < - (inject_Z m * pow2 j))%Q).
    { revert S. generalize (inject_Z m * pow2 j)%Q. intros q S. lra. }
    rewrite (round_pos_comp _ _ S' E).
    rewrite round_pos_exact by lia. rewrite inject_Z_opp. ring.
  - subst m. rewrite round64_zero; [ring | ring].
  - assert (S : (0 < inject_Z m * pow2 j)%Q).
    { assert (I : (0 < inject_Z m)%Q) by (change 0%Q with (inject_Z 0); rewrite <- Zlt_Qlt; exact P).
      setoid_replace 0%Q with (0 * pow2 j)%Q using relation Qeq by ring. apply Qmult_lt_r; assumption. }
    rewrite (round64_pos _ S). apply round_pos_exact; lia.
Qed.

Lemma round64_Z n : - 2 ^ 53 < n < 2 ^ 53 -> (round64 (inject_Z n) == inject_Z n)%Q.
Proof.
  intros H. pose proof (round64_exact n 0 H ltac:(lia)) as E.
  assert (A : (inject_Z n * pow2 0 == inject_Z n)%Q) by (change (pow2 0) with 1%Q; ring).
  rewrite <- A at 2. rewrite <- E. apply round64_comp. symmetry. exact A.
Qed.

Lemma fl_between x lo hi :
  (lo <= x <= hi)%Q -> (round64 lo == lo)%Q -> (round64 hi == hi)%Q ->
  (- pow2 1024 < lo)%Q -> (hi < pow2 1024)%Q ->
  exists r, fl x = Some r /\ (r == round64 x)%Q /\ (lo <= r <= hi)%Q.
Proof.
  intros [L H] Elo Ehi Blo Bhi.
  pose proof (round64_mono _ _ L) as ML. pose proof (round64_mono _ _ H) as MH.
  rewrite Elo in ML. rewrite Ehi in MH.
  exists (round64 x). split; [|split; [reflexivity | split; assumption]].
  unfold fl. cbv zeta.
  destruct (Qle_bool (pow2 1024) (Qabs (round64 x))) eqn:T; [|reflexivity].
  exfalso. apply Qle_bool_iff in T.
  revert T. apply Qlt_not_le. apply Qabs_Qlt_condition. split; lra.
Qed.

Lemma fl_bounded x lo hi :
  (inject_Z lo <= x <= inject_Z hi)%Q -> - 2 ^ 53 < lo -> hi < 2 ^ 53 ->
  exists r, fl x = Some r /\ (r == round64 x)%Q /\ (inject_Z lo <= r <= inject_Z hi)%Q.
Proof.
  intros [L H] Blo Bhi.
  assert (lo <= hi) by (rewrite Zle_Qle; lra).
  assert (P : (inject_Z (2 ^ 53) < pow2 1024)%Q).
  { rewrite <- (pow2_Z 53) by lia. apply pow2_lt. lia. }
  apply fl_between.
  - split; assumption.
  - apply round64_Z. lia.
  - apply round64_Z. lia.
  - apply Qlt_trans with (inject_Z (- 2 ^ 53)); [rewrite inject_Z_opp; lra|].
    rewrite <- Zlt_Qlt. exact Blo.
  - apply Qlt_trans with (inject_Z (2 ^ 53)); [|exact P].
    rewrite <- Zlt_Qlt. exact Bhi.
Qed.


Lemma truediv_floor a b :
  0 <= a -> 0 < b -> a + b <= 2 ^ 52 ->
  exists r, fl (inject_Z a / inject_Z b) = Some r /\ Qfloor r = a / b.
Proof.
  intros Ha Hb Hab.
  set (n := a / b). set (x := (inject_Z a / inject_Z b)%Q).
  assert (Hn : 0 <= n) by (apply Z.div_pos; lia).
  assert (Hdiv : n * b <= a < (n + 1) * b).
  { pose proof (Z.mul_div_le a b Hb). pose proof (Z.mul_succ_div_gt a b Hb). fold n in H, H0. lia. }
  assert (Ib : (0 < inject_Z b)%Q) by (change 0%Q with (inject_Z 0); rewrite <- Zlt_Qlt; exact Hb).
  assert (Ex : (x * inject_Z b == inject_Z a)%Q) by (unfold x; field; lra).
  assert (Hnb : n <= a) by nia.
  (* lower bound *)
  assert (Lx : (inject_Z n <= x)%Q).
  { apply (Qmult_le_r _ _ (inject_Z b) Ib). rewrite Ex, <- inject_Z_mult, <- Zle_Qle. lia. }
  (* a representable value between x and n + 1 *)
  set (j := Z.log2_up b).
  assert (Hj0 : 0 <= j) by apply Z.log2_up_nonneg.
  assert (Hj : b <= 2 ^ j /\ 2 ^ j < 2 * b).
  { destruct (Z.eq_dec b 1) as [B1|Nb].
    { assert (J0 : j = 0) by (unfold j; rewrite B1; reflexivity).
      rewrite J0, B1. split; reflexivity || lia. }
    destruct (Z.log2_up_spec b ltac:(lia)) as [S1 S2]. fold j in S1, S2.
    split; [exact S2|]. replace j with (Z.succ (Z.pred j)) by lia.
    rewrite Z.pow_succ_r; [lia|]. 
    destruct (Z.eq_dec j 0) as [J0|J0]; [rewrite J0 in S2; simpl in S2; lia | lia]. }
  set (m := (n + 1) * 2 ^ j - 1).
  assert (Hm : 0 <= m < 2 ^ 53).
  { unfold m. split; [nia|].
    assert ((n + 1) * 2 ^ j <= 2 * (a + b)) by nia. lia. }
  set (r := (inject_Z m * pow2 (- j))%Q).
  pose proof (pow2_pos j) as Pj. pose proof (pow2_pos (- j)) as Pnj.
  assert (Er : (r * pow2 j == inject_Z m)%Q).
  { unfold r. rewrite <- Qmult_assoc, <- pow2_add. replace (- j + j) with 0 by lia.
    change (pow2 0) with 1%Q. ring. }
  assert (Xr : (x <= r)%Q).
  { apply (Qmult_le_r _ _ (inject_Z b) Ib). apply (Qmult_le_r _ _ (pow2 j) Pj).
    setoid_replace (r * inject_Z b * pow2 j)%Q with (r * pow2 j * inject_Z b)%Q using relation Qeq by ring.
    rewrite Ex, Er. rewrite (pow2_Z j) by lia.
    rewrite <- !inject_Z_mult, <- Zle_Qle. unfold m. nia. }
  assert (Rn : (r < inject_Z (n + 1))%Q).
  { apply (Qmult_lt_r _ _ (pow2 j) Pj). rewrite Er. rewrite (pow2_Z j) by lia.
    rewrite <- inject_Z_mult, <- Zlt_Qlt. unfold m. lia. }
  assert (Hj53 : j < 54).
  { apply (Z.pow_lt_mono_r_iff 2); lia. }
  assert (Rr : (round64 r == r)%Q) by (apply round64_exact; lia).
  pose proof (round64_mono _ _ Xr) as MU. rewrite Rr in MU.
  assert (Hn53 : n + 1 < 2 ^ 53) by lia.
  destruct (fl_bounded x n (n + 1)) as [q [Fq [Eq [Q1 Q2]]]]; [| lia | exact Hn53 |].
  { split; [exact Lx | lra]. }
  exists q. split; [exact Fq|].
  apply Qfloor_unique. rewrite inject_Z_plus in Rn. change (inject_Z 1) with 1%Q in Rn.
  split; [exact Q1 | lra].
Qed.

End PyFacts.

(** ** Loops over [range(n)] *)

Lemma for_range_S {S : Type} (n : nat) (body : nat -> S -> Py.result S) (s : S) :
  Py.for_range (Datatypes.S n) body s = (s' ← Py.for_range n body s; body n s').
Proof.
  unfold Py.for_range. rewrite seq_S, fold_left_app. reflexivity.
Qed.

(** A loop whose body never raises, carried by an invariant indexed by
    the number of iterations done. *)
Lemma for_range_inv {S : Type} (Inv : nat -> S -> Prop) (n : nat)
    (body : nat -> S -> Py.result S) (s : S) :
  Inv 0%nat s ->
  (forall i s0, (i < n)%nat -> Inv i s0 ->
     exists s1, body i s0 = Py.Ok s1 /\ Inv (Datatypes.S i) s1) ->
  exists s', Py.for_range n body s = Py.Ok s' /\ Inv n s'.
Proof.
  intros H0 Hstep. induction n as [|n IH].
  - exists s. split; [reflexivity | exact H0].
  - destruct IH as [s1 [E1 I1]].
    { intros i s0 Hi. apply Hstep. lia. }
    destruct (Hstep n s1 ltac:(lia) I1) as [s2 [E2 I2]].
    exists s2. split; [|exact I2].
    rewrite for_range_S, E1. exact E2.
Qed.

(** ** create_mesh *)
Section MeshFacts.
Import Mesh.
Local Open Scope nat_scope.
Variable steps : Vector2u.

Local Abbreviation w := (x steps + 1).
Local Abbreviation nv := ((x steps + 1) * (y steps + 1)).
Local Abbreviation ni := (x steps * y steps * 4).

Lemma written_init : Inv.written steps 0 (MeshAttribute nv).
Proof.
  split; [apply length_replicate | intros v Hv; lia].
Qed.

Lemma attribute_set_written i j a :
  i < w -> j * w + i < nv -> Inv.written steps (j * w + i) a ->
  exists a', attribute_set (j * w + i) (i, j) a = Py.Ok a' /\
             Inv.written steps (Datatypes.S (j * w + i)) a'.
Proof.
  intros Hi Hk [Hl Hw]. unfold attribute_set.
  destruct (decide (j * w + i < length a)) as [_|N]; [|lia].
  eexists. split; [reflexivity|]. split.
  - rewrite length_insert. exact Hl.
  - intros v Hv. destruct (decide (v = j * w + i)) as [->|Ne].
    + rewrite list_lookup_insert_eq by lia.
      replace (j * w + i) with (i + j * w) by lia.
      rewrite Nat.Div0.mod_add, Nat.mod_small by lia.
      rewrite Nat.div_add, Nat.div_small by lia.
      reflexivity.
    + rewrite list_lookup_insert_ne by lia. apply Hw. lia.
Qed.

Lemma set_vertex_inv i j st :
  i < w -> j < y steps + 1 -> Inv.vertices steps (j * w + i) st ->
  exists st', set_vertex (i, j) st = Py.Ok st' /\
              Inv.vertices steps (j * w + Datatypes.S i) st'.
Proof.
  intros Hi Hj. destruct st as [vertex a]. intros (Hv & Wp & Wn & Wt & Wc).
  cbn [fst snd] in Hv, Wp, Wn, Wt, Wc. subst vertex.
  assert (Hk : j * w + i < nv) by nia.
  destruct (attribute_set_written i j _ Hi Hk Wp) as [ps [Ep Wp']].
  destruct (attribute_set_written i j _ Hi Hk Wn) as [ns [En Wn']].
  destruct (attribute_set_written i j _ Hi Hk Wt) as [ts [Et Wt']].
  destruct (attribute_set_written i j _ Hi Hk Wc) as [tc [Ec Wc']].
  eexists. split.
  - unfold set_vertex. rewrite Ep. cbn. rewrite En. cbn. rewrite Et. cbn.
    rewrite Ec. cbn. reflexivity.
  - replace (j * w + Datatypes.S i) with (Datatypes.S (j * w + i)) by lia.
    repeat split; simpl; first [apply Wp' | apply Wn' | apply Wt' | apply Wc'].
Qed.

Lemma vertex_loop :
  exists st,
    Py.for_range (y steps + 1) (fun j =>
      Py.for_range (x steps + 1) (fun i => set_vertex (i, j)))
      (0, {| positions := MeshAttribute nv; normals := MeshAttribute nv;
             tangents := MeshAttribute nv; texcoords := MeshAttribute nv |})
    = Py.Ok st /\ Inv.vertices steps nv st.
Proof.
  assert (Env : nv = (y steps + 1) * w) by lia.
  destruct (for_range_inv (fun j st => Inv.vertices steps (j * w) st) (y steps + 1)
              (fun j => Py.for_range (x steps + 1) (fun i => set_vertex (i, j)))
              (0, {| positions := MeshAttribute nv; normals := MeshAttribute nv;
                     tangents := MeshAttribute nv; texcoords := MeshAttribute nv |}))
    as [st [E I]].
  - repeat split; apply written_init.
  - intros j st Hj Ij.
    replace (Datatypes.S j * w) with (j * w + w) by lia.
    apply (for_range_inv (fun i st => Inv.vertices steps (j * w + i) st)).
    + replace (j * w + 0) with (j * w) by lia. exact Ij.
    + intros i st0 Hi Ii. apply set_vertex_inv; [exact Hi | exact Hj | exact Ii].
  - exists st. split; [exact E | rewrite Env; exact I].
Qed.

Lemma set_quad_inv i j st :
  i < x steps -> j < y steps -> Inv.indices steps (j * x steps + i) st ->
  exists st', set_quad steps i j st = Py.Ok st' /\
              Inv.indices steps (j * x steps + Datatypes.S i) st'.
Proof.
  intros Hi Hj. destruct st as [index b]. intros [Hx [Hl Hq]].
  cbn [fst snd] in Hx, Hl, Hq. subst index.
  set (k := j * x steps + i) in *.
  assert (Hk : 4 * k + 4 <= ni) by (unfold k; nia).
  unfold set_quad, indices_set.
  destruct (decide (4 * k + 4 <= length b)) as [_|N]; [|lia].
  eexists. split; [reflexivity|].
  replace (j * x steps + Datatypes.S i) with (Datatypes.S k) by (unfold k; lia).
  split; [cbn [fst]; lia|]. cbn [snd]. split.
  - rewrite length_inserts. exact Hl.
  - intros p Hp. destruct (decide (p < 4 * k)) as [Lt|Ge].
    + rewrite list_lookup_inserts_lt by lia. apply Hq. exact Lt.
    + rewrite list_lookup_inserts by (cbn [length]; lia).
      assert (Hv : (x steps + 1) * j + i + x steps + 2 < nv) by nia.
      destruct (p - 4 * k) as [|[|[|[|q]]]] eqn:D;
        try (eexists; split; [reflexivity | lia]).
      lia.
Qed.

Lemma index_loop :
  exists st,
    Py.for_range (y steps) (fun j =>
      Py.for_range (x steps) (fun i => set_quad steps i j))
      (0, MeshIndices ni)
    = Py.Ok st /\ Inv.indices steps (x steps * y steps) st.
Proof.
  destruct (for_range_inv (fun j st => Inv.indices steps (j * x steps) st) (y steps)
              (fun j => Py.for_range (x steps) (fun i => set_quad steps i j))
              (0, MeshIndices ni)) as [st [E I]].
  - split; [reflexivity|].
    split; [apply length_replicate | intros p Hp; simpl in Hp; lia].
  - intros j st Hj Ij.
    replace (Datatypes.S j * x steps) with (j * x steps + x steps) by lia.
    apply (for_range_inv (fun i st => Inv.indices steps (j * x steps + i) st)).
    + replace (j * x steps + 0) with (j * x steps) by lia. exact Ij.
    + intros i st0 Hi Ii. apply set_quad_inv; [exact Hi | exact Hj | exact Ii].
  - exists st. split; [exact E|].
    replace (x steps * y steps) with (y steps * x steps) by lia. exact I.
Qed.

End MeshFacts.


(** ** create_image *)
Section ImageFacts.
Import Image.
Context `{Tellusimd} `{Libm}.

Lemma pattern_range x y frame : 0 <= pattern x y frame <= 255.
Proof.
  unfold pattern. change 255 with (Z.ones 8). rewrite Z.land_ones by lia.
  pose proof (Z.mod_pos_bound (Z.lxor (x - Z.lxor frame y) (y + Z.lxor frame x)) (2 ^ 8)).
  change (Z.ones 8) with (2 ^ 8 - 1). lia.
Qed.

Lemma phase_range x y frame :
  exists v, phase x y frame = Some v /\ (0 <= v <= 5)%Q.
Proof.
  pose proof (pattern_range x y frame) as [P0 P1].
  rewrite Zle_Qle in P0, P1.
  destruct (fl_bounded (inject_Z (pattern x y frame) / 63) 0 5) as [v [E [_ B]]];
    [| lia | lia | exists v; split; [exact E | exact B]].
  revert P0 P1. generalize (inject_Z (pattern x y frame)). intros q P0 P1.
  change (inject_Z 0) with 0%Q in *. change (inject_Z 5) with 5%Q.
  change (inject_Z 255) with 255%Q in P1.
  split.
  - apply Qle_shift_div_l; lra.
  - apply Qle_shift_div_r; lra.
Qed.

Lemma int_range t : (0 <= t <= 255)%Q -> 0 <= Py.int t <= 255.
Proof.
  intros [T0 T1]. unfold Py.int.
  assert (E : Qle_bool 0 t = true) by (apply Qle_bool_iff; exact T0).
  rewrite E. split.
  - change 0 with (Qfloor 0). apply Qfloor_resp_le. exact T0.
  - change 255 with (Qfloor 255). apply Qfloor_resp_le. exact T1.
Qed.

(** One colour channel: no exception, and a value that fits a byte. *)
Lemma channel_range k v :
  (3 <= Pi <= 4)%Q -> (forall s, -1 <= math_cos s <= 1)%Q ->
  (0 <= k <= 1)%Q -> (0 <= v <= 5)%Q ->
  exists c, channel k (Some v) = Py.Ok c /\ 0 <= c <= 255.
Proof.
  intros HPi Hcos Hk Hv. unfold channel.
  destruct (fl_bounded (Pi * k) 0 4) as [p [Ep [_ Bp]]]; [| lia | lia |].
  { change (inject_Z 0) with 0%Q. change (inject_Z 4) with 4%Q. split; nra. }
  change (inject_Z 0) with 0%Q in Bp. change (inject_Z 4) with 4%Q in Bp.
  destruct (fl_bounded (p + v) 0 9) as [s [Es [_ Bs]]]; [| lia | lia |].
  { change (inject_Z 0) with 0%Q. change (inject_Z 9) with 9%Q. split; lra. }
  cbn [mbind option_bind]. unfold Py.fmul at 1. rewrite Ep.
  cbn [mbind option_bind]. unfold Py.fadd at 1. rewrite Es.
  pose proof (Hcos s) as Hc.
  destruct (fl_between (math_cos s * (255 # 2)) (- (255 # 2)) (255 # 2))
    as [m [Em [_ Bm]]].
  { split; lra. }
  { vm_compute. reflexivity. }
  { vm_compute. reflexivity. }
  { vm_compute. reflexivity. }
  { vm_compute. reflexivity. }
  destruct (fl_bounded (m + (255 # 2)) 0 255) as [t [Et [_ Bt]]]; [| lia | lia |].
  { change (inject_Z 0) with 0%Q. change (inject_Z 255) with 255%Q. split; lra. }
  unfold Py.fmul. rewrite Em. cbn [mbind option_bind]. unfold Py.fadd. rewrite Et.
  eexists. split; [reflexivity|]. apply int_range. exact Bt.
Qed.

(** The colour of a texel is defined and fits four bytes. *)
Lemma texel_color_range frame x y :
  (3 <= Pi <= 4)%Q -> (forall s, -1 <= math_cos s <= 1)%Q ->
  exists c, texel_color frame x y = Py.Ok c /\ Inv.byte_color c.
Proof.
  intros HPi Hcos. unfold texel_color.
  destruct (phase_range (Z.of_nat x) (Z.of_nat y) frame) as [v [Ev Bv]].
  rewrite Ev.
  destruct (channel_range 1 v HPi Hcos ltac:(lra) Bv) as [cr [Er Br]].
  destruct (channel_range (1 # 2) v HPi Hcos ltac:(lra) Bv) as [cg [Eg Bg]].
  destruct (channel_range 0 v HPi Hcos ltac:(lra) Bv) as [cb [Eb Bb]].
  rewrite Er. cbn [mbind Py.result_bind]. rewrite Eg. cbn [mbind Py.result_bind].
  rewrite Eb. cbn [mbind Py.result_bind].
  eexists. split; [reflexivity|]. repeat split; cbn; lia.
Qed.

(** One iteration of the inner loop stores the colour of its own texel
    and keeps the alpha of the shared [color] object. *)
Lemma fill_texel_spec frame x y color img c :
  texel_color frame x y = Py.Ok c -> a color = 255 ->
  (x < size img)%nat -> (y < size img)%nat ->
  fill_texel frame x y (color, img) =
    Py.Ok (c, {| size := size img;
                 texels := <[(y * size img + x)%nat := Some c]> (texels img) |}).
Proof.
  intros Hc Ha Hx Hy. unfold texel_color in Hc. unfold fill_texel.
  destruct (channel 1 _) as [cr|]; [|discriminate Hc]. cbn [mbind Py.result_bind] in *.
  destruct (channel (1 # 2) _) as [cg|]; [|discriminate Hc]. cbn [mbind Py.result_bind] in *.
  destruct (channel 0 _) as [cb|]; [|discriminate Hc]. cbn [mbind Py.result_bind] in *.
  injection Hc as <-. cbn [r g b a]. rewrite Ha.
  unfold set2D. destruct (decide _) as [_|N]; [reflexivity | lia].
Qed.

Section Loop.
Variable n : nat.
Variable frame : Z.
Local Open Scope nat_scope.

Lemma fill_texel_painted x y st :
  (3 <= Pi <= 4)%Q -> (forall s, -1 <= math_cos s <= 1)%Q ->
  x < n -> y < n -> Inv.painted n frame (y * n + x) st ->
  exists st', fill_texel frame x y st = Py.Ok st' /\
              Inv.painted n frame (Datatypes.S (y * n + x)) st'.
Proof.
  intros HPi Hcos Hx Hy. destruct st as [color img].
  intros (Ha & Hs & Hl & Hp). cbn [fst snd] in Ha, Hs, Hl, Hp.
  destruct (texel_color_range frame x y HPi Hcos) as [c [Ec Bc]].
  eexists. split.
  - apply fill_texel_spec; [exact Ec | exact Ha | lia | lia].
  - rewrite Hs. repeat split; cbn [fst snd size texels].
    + apply Bc.
    + rewrite length_insert. exact Hl.
    + intros p Hlt. destruct (decide (p = y * n + x)) as [->|Ne].
      * exists c. split.
        -- apply list_lookup_insert_eq. nia.
        -- replace (y * n + x) with (x + y * n) by lia.
           rewrite Nat.Div0.mod_add, Nat.mod_small by lia.
           rewrite Nat.div_add, Nat.div_small by lia. exact Ec.
      * rewrite list_lookup_insert_ne by lia. apply Hp. lia.
Qed.

Lemma texel_loop :
  (3 <= Pi <= 4)%Q -> (forall s, -1 <= math_cos s <= 1)%Q ->
  exists st,
    Py.for_range n (fun y => Py.for_range n (fun x => fill_texel frame x y))
                 (ImageColor_new 255, create2D n) = Py.Ok st /\
    Inv.painted n frame (n * n) st.
Proof.
  intros HPi Hcos.
  apply (for_range_inv (fun y st => Inv.painted n frame (y * n) st)).
  - repeat split; [apply length_replicate | intros p Hp; lia].
  - intros y st Hy Iy.
    replace (Datatypes.S y * n) with (y * n + n) by lia.
    apply (for_range_inv (fun x st => Inv.painted n frame (y * n + x) st)).
    + replace (y * n + 0) with (y * n) by lia. exact Iy.
    + intros x st0 Hx Ix.
      replace (y * n + Datatypes.S x) with (Datatypes.S (y * n + x)) by lia.
      apply fill_texel_painted; assumption.
Qed.

End Loop.

End ImageFacts.

(** C10.  [create_image] is a function of [(size, frame)]: equal arguments
    give equal images, and the colour stored at texel [(x, y)] is
    [texel_color frame x y], which depends on nothing but the frame number
    and the position (in particular not on what earlier iterations left in
    the shared [color] object).  With [Pi] between 3 and 4 and [math.cos]
    ranging over [-1, 1], no exception is raised, every texel is written,
    its red, green and blue values lie in [0, 255] and its alpha is 255. *)
Theorem create_image_deterministic_bytes `{Tellusimd} `{Libm} (n : nat) (frame : Z) :
  (3 <= Pi <= 4)%Q -> (forall s, -1 <= math_cos s <= 1)%Q ->
  (forall n' frame', n' = n -> frame' = frame ->
     Image.create_image n' frame' = Image.create_image n frame) /\
  exists img, Image.create_image n frame = Py.Ok img /\
    Image.size img = n /\ length (Image.texels img) = (n * n)%nat /\
    forall x y, (x < n)%nat -> (y < n)%nat ->
      exists c, Image.texels img !! (y * n + x)%nat = Some (Some c) /\
                Image.texel_color frame x y = Py.Ok c /\
                0 <= Image.r c <= 255 /\ 0 <= Image.g c <= 255 /\
                0 <= Image.b c <= 255 /\ Image.a c = 255.
Proof.
  intros HPi Hcos. split; [intros n' frame' -> ->; reflexivity|].
  destruct (texel_loop n frame HPi Hcos) as [[color img] [E (_ & Hs & Hl & Hp)]].
  cbn [fst snd] in Hs, Hl, Hp.
  exists img. split; [unfold Image.create_image; rewrite E; reflexivity|].
  split; [exact Hs|]. split; [exact Hl|].
  intros x y Hx Hy.
  destruct (Hp (y * n + x)%nat ltac:(nia)) as [c [Lc Tc]].
  replace (y * n + x)%nat with (x + y * n)%nat in Tc by lia.
  rewrite Nat.Div0.mod_add, Nat.mod_small in Tc by lia.
  rewrite Nat.div_add, Nat.div_small in Tc by lia. cbn [Nat.add] in Tc.
  exists c. split; [exact Lc|]. split; [exact Tc|].
  destruct (texel_color_range frame x y HPi Hcos) as [c' [Ec Bc]].
  rewrite Tc in Ec. injection Ec as <-. exact Bc.
Qed.

(** ** main_loop *)
Section FrameFacts.
Import Frame.
Context `{Tellusimd} `{Libm}.

Lemma update_controls_spec env fuel k st :
  exists t,
    Forall is_root_update t /\
    (update_controls env fuel k st = (t ++ [], st, Stop Spinning) \/
     (update_controls env fuel k st = (t, st, Next tt) /\ t <> [])).
Proof.
  revert k. induction fuel as [|fuel IH]; intros k.
  - exists []. split; [constructor | left; reflexivity].
  - cbn. destruct (root_update env k) eqn:R.
    + destruct (IH (S k)) as [t [Ft [E|[E Ne]]]];
        exists (Ev 452 (RootUpdate true) :: t);
        (split; [constructor; [split; [reflexivity | eexists; reflexivity] | exact Ft]|]).
      * left. unfold mbind, M_bind, emit. rewrite E. reflexivity.
      * right. split; [|discriminate]. unfold mbind, M_bind, emit. rewrite E. reflexivity.
    + exists [Ev 452 (RootUpdate false)]. split.
      * constructor; [split; [reflexivity | eexists; reflexivity] | constructor].
      * right. split; [reflexivity | discriminate].
Qed.

(** Observations of a trace skip over the root-update calls. *)
Lemma calls_app p t1 t2 : calls p (t1 ++ t2) = calls p t1 ++ calls p t2.
Proof.
  induction t1 as [|e t1 IH]; [reflexivity|].
  cbn [app calls]. destruct (p (what e)); rewrite IH; reflexivity.
Qed.

Lemma calls_root_update p pre t rest :
  Forall is_root_update t -> (forall again, p (RootUpdate again) = false) ->
  calls p (pre ++ t ++ rest) = calls p (pre ++ rest).
Proof.
  intros Ft Hp. rewrite !calls_app. f_equal.
  replace (calls p t) with (@nil call); [reflexivity|].
  induction Ft as [|e t [_ [again Ee]] _ IH]; [reflexivity|].
  cbn [calls]. rewrite Ee, Hp. exact IH.
Qed.

Lemma between_app lo hi t1 t2 :
  between lo hi (t1 ++ t2) = between lo hi t1 ++ between lo hi t2.
Proof.
  induction t1 as [|e t1 IH]; [reflexivity|].
  cbn [app between]. destruct (_ && _); rewrite IH; reflexivity.
Qed.

Lemma between_root_update lo hi pre t rest :
  Forall is_root_update t -> (452 <? lo) || (hi <? 452) = true ->
  between lo hi (pre ++ t ++ rest) = between lo hi (pre ++ rest).
Proof.
  intros Ft Hr. rewrite !between_app. f_equal.
  replace (between lo hi t) with (@nil event); [reflexivity|].
  induction Ft as [|e t [El _] _ IH]; [reflexivity|].
  cbn [between]. rewrite El.
  replace ((lo <=? 452) && (452 <=? hi)) with false; [exact IH|].
  symmetry. apply andb_false_iff.
  apply orb_true_iff in Hr. rewrite !Z.ltb_lt in Hr. rewrite !Z.leb_gt. lia.
Qed.

Lemma phases_cons p l :
  phases (p :: l) =
  match phases l with
  | q :: r => if decide (p = q) then q :: r else p :: q :: r
  | [] => [p]
  end.
Proof. reflexivity. Qed.

Lemma phases_head p l : exists r, phases (p :: l) = p :: r.
Proof.
  rewrite phases_cons. destruct (phases l) as [|q r]; [eexists; reflexivity|].
  destruct (decide (p = q)) as [->|]; eexists; reflexivity.
Qed.

Lemma phases_root_update pre t e rest :
  Forall is_root_update t -> phase_of e = UIUpdate ->
  phases (map phase_of (pre ++ t ++ e :: rest)) =
  phases (map phase_of (pre ++ e :: rest)).
Proof.
  intros Ft He.
  assert (E : phases (map phase_of (t ++ e :: rest)) = phases (map phase_of (e :: rest))).
  { destruct (phases_head UIUpdate (map phase_of rest)) as [r Hr].
    cbn [map]. rewrite He, Hr.
    induction Ft as [|a t [El _] _ IH]; [cbn [app map]; rewrite He; exact Hr|].
    cbn [app map]. rewrite phases_cons, IH.
    unfold phase_of. rewrite El. reflexivity. }
  induction pre as [|a pre IH]; [exact E|].
  cbn [app map]. rewrite !phases_cons, IH. reflexivity.
Qed.

Lemma last_root_update pre t (e : event) rest :
  last (pre ++ t ++ e :: rest) = last (pre ++ e :: rest).
Proof.
  rewrite !app_assoc.
  rewrite (last_app (pre ++ t) (e :: rest)), (last_app pre (e :: rest)).
  destruct (last (e :: rest)) eqn:L; [reflexivity|].
  exfalso. revert L. generalize e. induction rest as [|b rest IH]; intros e0 L.
  - discriminate L.
  - apply (IH b). exact L.
Qed.

Lemma next_after_root_update p pre t rest :
  Forall is_root_update t -> (forall again, p (RootUpdate again) = false) ->
  calls p pre = [] ->
  next_after p (pre ++ t ++ rest) = next_after p (pre ++ rest).
Proof.
  intros Ft Hp Hpre.
  assert (E : next_after p (t ++ rest) = next_after p rest).
  { induction Ft as [|e t [_ [again Ee]] _ IH]; [reflexivity|].
    cbn [app next_after]. rewrite Ee, Hp. exact IH. }
  induction pre as [|a pre IH]; [exact E|].
  cbn [app next_after]. cbn [calls] in Hpre.
  destruct (p (what a)); [discriminate Hpre | apply IH, Hpre].
Qed.

Ltac frame_unfold :=
  cbv beta iota zeta delta
    [result trace after run main_loop mbind mret M_bind M_ret emit stop get put
     check lift update_scene resize_frame update_texture dispatch_scene
     draw_deferred dispatch_render update_interface window_target
     derived_width Py.result_bind Py.result_ret fst snd];
  cbn [app].

Ltac frame_case :=
  match goal with
  | |- context [if window_render ?e then _ else _] =>
      destruct (window_render e) eqn:?
  | |- context [if negb ?a || negb ?b then _ else _] =>
      destruct (negb a || negb b) eqn:?
  | |- context [if frame_create ?e then _ else _] =>
      destruct (frame_create e) eqn:?
  | |- context [if texture_due ?e then _ else _] =>
      destruct (texture_due e) eqn:?
  | |- context [match Image.create_image ?a ?b with _ => _ end] =>
      destruct (Image.create_image a b) eqn:?
  | |- context [if scene_create ?e then _ else _] =>
      destruct (scene_create e) eqn:?
  | |- context [if manager_update ?e then _ else _] =>
      destruct (manager_update e) eqn:?
  | |- context [match Py.truediv (app_height ?e * window_width ?e) ?b with _ => _ end] =>
      destruct (Py.truediv (app_height e * window_width e) b) eqn:?
  | |- context [match Py.truediv (?w * mouse_x ?e) ?b with _ => _ end] =>
      destruct (Py.truediv (w * mouse_x e) b) eqn:?
  | |- context [match Py.truediv (?w * mouse_y ?e) ?b with _ => _ end] =>
      destruct (Py.truediv (w * mouse_y e) b) eqn:?
  | |- context [match Py.truediv (Py.floor ?a) ?b with _ => _ end] =>
      destruct (Py.truediv (Py.floor a) b) eqn:?
  | |- context [match Py.truediv ?a ?b with _ => _ end] =>
      destruct (Py.truediv a b) eqn:?
  | |- context [update_controls ?env ?fuel ?k ?s] =>
      let t := fresh "t" in let Ft := fresh "Ft" in
      let E := fresh "E" in let Ne := fresh "Ne" in
      destruct (update_controls_spec env fuel k s) as [t [Ft [E|[E Ne]]]];
      rewrite E; clear E
  | |- context [if target_begin ?e then _ else _] =>
      destruct (target_begin e) eqn:?
  | |- context [if window_present ?e then _ else _] =>
      destruct (window_present e) eqn:?
  | |- context [if device_check ?e then _ else _] =>
      destruct (device_check e) eqn:?
  end.

(** Every path through [main_loop]. *)
Ltac frame_cases := frame_unfold; repeat (frame_case; frame_unfold).

(** Bring the calls of the interface loop to the front of what follows
    them, and drop them from the observation at hand. *)
(** Split a trace at the calls [t] of the interface loop. *)
Ltac split_trace t l :=
  lazymatch l with
  | t ++ ?rest => constr:((@nil event, rest))
  | ?pre ++ t ++ ?rest => constr:((pre, rest))
  | ?e :: ?l' =>
      lazymatch split_trace t l' with
      | (?pre, ?rest) => constr:((e :: pre, rest))
      end
  | t => constr:((@nil event, @nil event))
  end.

Ltac skip_in t l :=
  lazymatch split_trace t l with
  | (?pre, ?rest) => change l with (pre ++ t ++ rest)
  end.

(** Drop the calls of the interface loop from the observation at hand. *)
Ltac skip_root_update :=
  rewrite <- ?app_assoc; cbn [app];
  repeat match goal with
  | Ft : Forall is_root_update ?t |- context [calls ?p ?l] =>
      skip_in t l; rewrite (calls_root_update p _ t _ Ft) by (intros; reflexivity)
  | Ft : Forall is_root_update ?t |- context [between ?lo ?hi ?l] =>
      skip_in t l; rewrite (between_root_update lo hi _ t _ Ft) by reflexivity
  | Ft : Forall is_root_update ?t |- context [next_after ?p ?l] =>
      skip_in t l;
      rewrite (next_after_root_update p _ t _ Ft) by (intros; reflexivity)
  | Ft : Forall is_root_update ?t |- context [map phase_of ?l] =>
      skip_in t l; rewrite (phases_root_update _ t _ _ Ft) by reflexivity
  | Ft : Forall is_root_update ?t |- context [last ?l] =>
      skip_in t l; rewrite (last_root_update _ t _ _)
  end.


(** C3.  In every iteration the late dispatch group (lines 417-428)
    either is not reached at all, and then no lighting, occlusion,
    luminance or composite pass is dispatched anywhere in the iteration,
    or it consists of exactly: create the compute scope, Lighting,
    Occlusion, Luminance, Composite, release the scope, in this order,
    with Composite the last pass.  It is reached exactly when the
    deferred draw was issued. *)
Theorem late_dispatch_order fuel env st :
  (between 417 428 (trace fuel env st) = [] /\
   calls is_late_pass (trace fuel env st) = [] /\
   calls is_deferred_draw (trace fuel env st) = []) \/
  (between 417 428 (trace fuel env st) = late_group /\
   calls is_late_pass (trace fuel env st) =
     [RendererDispatchLight; RendererDispatchOccluder;
      RendererDispatchLuminance; RendererDispatchComposite] /\
   calls is_deferred_draw (trace fuel env st) = [RendererDrawDeferred]).
Proof.
  frame_cases; skip_root_update;
    first [left; repeat split; reflexivity | right; repeat split; reflexivity].
Qed.



(** C8.  In every iteration in which [target.begin()] is called and
    fails, nothing between lines 459 and 483 runs: no command is
    created, neither the background nor the canvas is drawn, and
    [target.end()] is not called.  The iteration is not abandoned: the
    call that follows the failed begin is [window.present()], the one
    Present call of the iteration. *)
Theorem begin_failure_skips_drawing fuel env st :
  calls is_target_begin (trace fuel env st) = [TargetBegin false] ->
  between 459 483 (trace fuel env st) = [] /\
  next_after is_target_begin (trace fuel env st) =
    Some (Ev 486 (WindowPresent (window_present env))) /\
  calls is_present (trace fuel env st) = [WindowPresent (window_present env)].
Proof.
  frame_cases; skip_root_update; intros B; try discriminate B.
  all: repeat split; reflexivity.
Qed.

Lemma viewport_width fuel env st w h :
  In (RootSetViewport w h) (calls is_set_viewport (trace fuel env st)) ->
  derived_width env (app_height env) = Py.Ok w /\ h = app_height env.
Proof.
  frame_cases; skip_root_update; intros V;
    lazy beta iota zeta delta [calls what is_set_viewport In app] in V;
    try contradiction.
  all: destruct V as [V|[]]; injection V as <- <-; split; reflexivity.
Qed.

(** C4 (amended).  For a window of size [(Ww, Wh)] with [Wh > 0] and a
    logical height [H >= 0] such that [H * Ww + Wh <= 2^52], the width
    computed at line 435 is exactly [floor (H * Ww / Wh)], and this is
    the width handed to [root.setViewport] in the UI update, next to
    the height [H]. *)
Theorem derived_width_exact fuel env st :
  0 <= app_height env -> 0 <= window_width env -> 0 < window_height env ->
  app_height env * window_width env + window_height env <= 2 ^ 52 ->
  derived_width env (app_height env) =
    Py.Ok (app_height env * window_width env / window_height env) /\
  forall w h,
    In (RootSetViewport w h) (calls is_set_viewport (trace fuel env st)) ->
    w = app_height env * window_width env / window_height env /\
    h = app_height env.
Proof.
  intros Hh Hw Hwh B.
  assert (E : derived_width env (app_height env) =
               Py.Ok (app_height env * window_width env / window_height env)).
  { unfold derived_width, Py.truediv.
    destruct (Z.eqb_spec (window_height env) 0) as [?|_]; [lia|].
    destruct (truediv_floor (app_height env * window_width env) (window_height env))
      as [r [F Fl]]; [nia | lia | lia |].
    rewrite F. cbn [mbind mret Py.result_bind Py.result_ret].
    unfold Py.floor. rewrite Fl. reflexivity. }
  split; [exact E|]. intros w h V.
  destruct (viewport_width fuel env st w h V) as [E' ->].
  rewrite E in E'. injection E' as <-. split; reflexivity.
Qed.
End FrameFacts.

(** ** process_callback *)
Section WorkerFacts.
Import Worker.
Local Open Scope nat_scope.
Variable env : worker_env.

Lemma continues_true i :
  continues env i = true -> manager_valid env i = true /\ is_terminated env i = false.
Proof.
  unfold continues. intros C. apply andb_true_iff in C as [V T].
  apply negb_true_iff in T. split; assumption.
Qed.

Lemma process_callback_step fuel i :
  continues env i = true ->
  process_callback env (S fuel) i =
    ((round env i ++ (process_callback env fuel (S i)).1,
      (process_callback env fuel (S i)).2)).
Proof.
  intros C. destruct (continues_true i C) as [V T].
  cbn [process_callback]. rewrite V, T.
  destruct (process_callback env fuel (S i)) as [t d]. reflexivity.
Qed.

Lemma process_callback_exit fuel i :
  continues env i = false ->
  process_callback env (S fuel) i = (exit_calls env i, true).
Proof.
  unfold continues, exit_calls. intros C. cbn [process_callback].
  destruct (manager_valid env i); [|reflexivity].
  destruct (is_terminated env i); [reflexivity | discriminate C].
Qed.

(** While the condition holds, the loop goes round. *)
Lemma process_callback_rounds n : forall fuel i,
  n <= fuel -> (forall j, i <= j < i + n -> continues env j = true) ->
  process_callback env fuel i =
    (flat_map (round env) (seq i n) ++ (process_callback env (fuel - n) (i + n)).1,
     (process_callback env (fuel - n) (i + n)).2).
Proof.
  induction n as [|n IH]; intros fuel i Hn Hc.
  - rewrite Nat.sub_0_r, Nat.add_0_r. cbn [seq flat_map app].
    destruct (process_callback env fuel i). reflexivity.
  - destruct fuel as [|fuel]; [lia|].
    rewrite process_callback_step by (apply Hc; lia).
    rewrite (IH fuel (S i)) by (try lia; intros j Hj; apply Hc; lia).
    cbn [seq flat_map fst snd]. rewrite <- app_assoc.
    replace (S fuel - S n) with (fuel - n) by lia.
    replace (i + S n) with (S i + n) by lia. reflexivity.
Qed.

Lemma process_callback_returns fuel : forall i n,
  i <= n < i + fuel -> continues env n = false ->
  (process_callback env fuel i).2 = true.
Proof.
  induction fuel as [|fuel IH]; intros i n Hn Hc; [lia|].
  destruct (continues env i) eqn:C.
  - rewrite process_callback_step by exact C. cbn [snd].
    apply (IH (S i) n); [|exact Hc].
    destruct (Nat.eq_dec n i) as [->|]; [congruence | lia].
  - rewrite process_callback_exit by exact C. reflexivity.
Qed.

Lemma process_callback_returned fuel : forall i,
  (process_callback env fuel i).2 = true ->
  exists n, i <= n < i + fuel /\ continues env n = false.
Proof.
  induction fuel as [|fuel IH]; intros i R; [discriminate R|].
  destruct (continues env i) eqn:C.
  - rewrite process_callback_step in R by exact C. cbn [snd] in R.
    destruct (IH (S i) R) as [n [Hn Hc]]. exists n. split; [lia | exact Hc].
  - exists i. split; [lia | exact C].
Qed.

(** Once the terminated flag has been seen set, nothing but the final log
    line follows. *)
Lemma nothing_after_terminated fuel : forall i,
  calls is_streaming_call
        (after_first is_terminated_seen (process_callback env fuel i).1) = [].
Proof.
  induction fuel as [|fuel IH]; intros i; [reflexivity|].
  destruct (continues env i) eqn:C.
  - rewrite process_callback_step by exact C. cbn [fst].
    unfold round, iteration. cbn [app after_first what is_terminated_seen].
    destruct (process env i); cbn [app after_first what is_terminated_seen]; apply IH.
  - rewrite process_callback_exit by exact C. cbn [fst]. unfold exit_calls.
    destruct (manager_valid env i); reflexivity.
Qed.

End WorkerFacts.

(** C7 (amended).  The worker loop returns if and only if some
    evaluation of its condition finds the scene-manager handle false or
    the terminated flag set.  Every turn before that tests the handle and
    the flag, calls [scene_manager.process(process_async)] once, and
    calls [Time.sleep(1000)] right after it exactly when the call
    returned false; whatever [process] returns, the loop goes on to the
    next test.  On leaving the loop it logs 'Thread Done'. *)
Theorem worker_loop (env : Worker.worker_env) (fuel : nat) :
  ((Worker.process_callback env fuel 0).2 = true <->
   exists n, (n < fuel)%nat /\ Worker.continues env n = false) /\
  (forall n, (n < fuel)%nat ->
     (forall j, (j < n)%nat -> Worker.continues env j = true) ->
     Worker.continues env n = false ->
     Worker.process_callback env fuel 0 =
       (flat_map (Worker.round env) (seq 0 n) ++ Worker.exit_calls env n, true)) /\
  (forall n, (n <= fuel)%nat ->
     (forall j, (j < n)%nat -> Worker.continues env j = true) ->
     exists t, (Worker.process_callback env fuel 0).1 =
               flat_map (Worker.round env) (seq 0 n) ++ t).
Proof.
  split; [split|split].
  - intros R. destruct (process_callback_returned env fuel 0%nat R) as [n [Hn Hc]].
    exists n. split; [lia | exact Hc].
  - intros [n [Hn Hc]]. apply (process_callback_returns env fuel 0%nat n); [lia | exact Hc].
  - intros n Hn Hc Hx.
    rewrite (process_callback_rounds env n fuel 0%nat) by (try lia; intros j Hj; apply Hc; lia).
    destruct (fuel - n)%nat as [|f] eqn:F; [lia|].
    rewrite process_callback_exit by exact Hx. reflexivity.
  - intros n Hn Hc.
    rewrite (process_callback_rounds env n fuel 0%nat) by (try lia; intros j Hj; apply Hc; lia).
    eexists. reflexivity.
Qed.

(** ** main *)
Section MainFacts.
Import Main.

(** Every path through the setup of [main]: a failing step is closed by
    [leaf], the complete run is left as the goal. *)
Ltac main_cases leaf :=
  intros env; destruct env as [a1 a2 a3 a4 a5 a6 a7 a8 a9 a10 a11 a12 a13 a14];
  cbn [app_create window_valid window_create window_set_hidden device_valid
       target_valid shader_vertex shader_fragment pipeline_create
       main_async_init process_async_init scene_manager_create
       render_manager_create final_update];
  destruct a1; [|lazy; leaf]; destruct a2; [|lazy; leaf];
  destruct a3; [|lazy; leaf]; destruct a4; [|lazy; leaf];
  destruct a5; [|lazy; leaf]; destruct a6; [|lazy; leaf];
  destruct a7; [|lazy; leaf]; destruct a8; [|lazy; leaf];
  destruct a9; [|lazy; leaf]; destruct a10; [|lazy; leaf];
  destruct a11; [|lazy; leaf]; destruct a12; [|lazy; leaf];
  destruct a13; [|lazy; leaf]; lazy.

Lemma main_shutdown : forall env,
  ((main env).2 = 0 ->
   between 494 512 (main env).1 =
     [Ev 496 SceneManagerTerminate; Ev 499 WindowFinish; Ev 502 SceneClear;
      Ev 503 (SceneManagerUpdate (final_update env)); Ev 504 WindowFinish;
      Ev 507 ThreadJoin; Ev 510 LogDone]) /\
  (calls is_join (main env).1 = [] \/
   calls is_terminate (before_first is_join (main env).1) = [SceneManagerTerminate]).
Proof.
  main_cases ltac:(split; [intros E; discriminate E | left; reflexivity]).
  split; [intros _; reflexivity | right; reflexivity].
Qed.

End MainFacts.

(** C5.  When [main] gets through its setup, the calls it makes after
    [window.run] returns are exactly, in this order:
    [scene_manager.terminate()], [window.finish()], [scene.clear()],
    [scene_manager.update(device, main_async)], [window.finish()],
    [thread.join()] and the final log line.  On every path through
    [main], a [thread.join()] is preceded by exactly one
    [scene_manager.terminate()].  In the worker thread, no
    [scene_manager.process] call and no sleep follows the first test that
    finds the terminated flag set. *)
Theorem shutdown_order (env : Main.setup_env) (wenv : Worker.worker_env)
    (fuel i : nat) :
  ((Main.main env).2 = 0 ->
   between 494 512 (Main.main env).1 =
     [Ev 496 SceneManagerTerminate; Ev 499 WindowFinish; Ev 502 SceneClear;
      Ev 503 (SceneManagerUpdate (Main.final_update env)); Ev 504 WindowFinish;
      Ev 507 ThreadJoin; Ev 510 LogDone]) /\
  (calls Main.is_join (Main.main env).1 = [] \/
   calls Main.is_terminate (before_first Main.is_join (Main.main env).1) =
     [SceneManagerTerminate]) /\
  calls Worker.is_streaming_call
        (after_first Worker.is_terminated_seen
                     (Worker.process_callback wenv fuel i).1) = [].
Proof.
  destruct (main_shutdown env) as [A B].
  split; [exact A|]. split; [exact B|]. apply nothing_after_terminated.
Qed.

(** ** The theorems at the sample inputs *)

Lemma sample_pi_range : (3 <= @Pi Sample.consts <= 4)%Q.
Proof. split; unfold Qle; cbn; lia. Qed.

Lemma clipped_cos_range (s : Q) : (-1 <= Sample.clipped_cos s <= 1)%Q.
Proof.
  unfold Sample.clipped_cos. cbv zeta.
  set (c := (1 - s * s / 2 + s * s * s * s / 24)%Q).
  destruct (Qle_bool c (-1)) eqn:L; [split; lra|].
  destruct (Qle_bool 1 c) eqn:U; [split; lra|].
  assert (L' : ~ (c <= -1)%Q) by (rewrite <- Qle_bool_iff; congruence).
  assert (U' : ~ (1 <= c)%Q) by (rewrite <- Qle_bool_iff; congruence).
  apply Qnot_le_lt in L'. apply Qnot_le_lt in U'. split; lra.
Qed.





(** A frame whose [target.begin()] fails still presents. *)
Lemma busy_surface_presents :
  calls Frame.is_target_begin
    (@Frame.trace Sample.consts Sample.libm 3 Sample.surface_busy Sample.fresh)
    = [TargetBegin false] /\
  between 459 483
    (@Frame.trace Sample.consts Sample.libm 3 Sample.surface_busy Sample.fresh) = [] /\
  calls Frame.is_present
    (@Frame.trace Sample.consts Sample.libm 3 Sample.surface_busy Sample.fresh)
    = [WindowPresent true].
Proof.
  split; [vm_compute; reflexivity|].
  destruct (@begin_failure_skips_drawing Sample.consts Sample.libm 3
              Sample.surface_busy Sample.fresh) as (B & _ & P).
  - vm_compute. reflexivity.
  - split; [exact B | exact P].
Defined.

(** The two scenarios of the interface width. *)
Lemma derived_width_scenarios :
  Frame.derived_width (Sample.frame 1920 1080 1080) 1080 = Py.Ok 1920 /\
  Frame.derived_width (Sample.frame 1280 720 900) 900 = Py.Ok 1600.
Proof.
  split.
  - apply (proj1 (@derived_width_exact Sample.consts Sample.libm 3
                    (Sample.frame 1920 1080 1080) Sample.fresh
                    ltac:(cbn; lia) ltac:(cbn; lia) ltac:(cbn; lia) ltac:(cbn; lia))).
  - apply (proj1 (@derived_width_exact Sample.consts Sample.libm 3
                    (Sample.frame 1280 720 900) Sample.fresh
                    ltac:(cbn; lia) ltac:(cbn; lia) ltac:(cbn; lia) ltac:(cbn; lia))).
Defined.

(** Beyond 2^52 the quotient is rounded before it is floored: here the
    exact quotient is 2^27 - 2^-27 and the computed width is 2^27. *)
Lemma derived_width_rounds_up :
  Frame.derived_width (Sample.frame 134217727 134217728 134217729) 134217729
    = Py.Ok 134217728 /\
  134217729 * 134217727 / 134217728 = 134217727.
Proof. vm_compute. split; reflexivity. Qed.

(** A worker terminated at its third test: one turn with progress, one
    without (followed by the sleep), then the exit. *)
Lemma worker_two_rounds :
  Worker.process_callback Sample.terminated_at_2 5 0 =
    ([Ev 273 (SceneManagerBool true); Ev 273 (SceneManagerIsTerminated false);
      Ev 274 (SceneManagerProcess true);
      Ev 273 (SceneManagerBool true); Ev 273 (SceneManagerIsTerminated false);
      Ev 274 (SceneManagerProcess false); Ev 274 (TimeSleep 1000);
      Ev 273 (SceneManagerBool true); Ev 273 (SceneManagerIsTerminated true);
      Ev 275 LogThreadDone], true).
Proof.
  apply (proj1 (proj2 (worker_loop Sample.terminated_at_2 5)) 2%nat).
  - lia.
  - intros j Hj. destruct j as [|[|j]]; [reflexivity | reflexivity | lia].
  - reflexivity.
Defined.

(** The loop also ends when the handle tests false, without the
    terminated flag ever being seen set. *)
Lemma worker_exits_on_invalid_handle :
  (Worker.process_callback Sample.invalid_manager 1 0).2 = true /\
  calls Worker.is_terminated_seen
        (Worker.process_callback Sample.invalid_manager 1 0).1 = [] /\
  (forall i, Worker.is_terminated Sample.invalid_manager i = false).
Proof. split; [reflexivity|]. split; [reflexivity|]. intros i. reflexivity. Qed.

(** A complete run of [main]. *)
Lemma shutdown_order_all_ok :
  (Main.main Sample.all_ok).2 = 0 /\
  between 494 512 (Main.main Sample.all_ok).1 =
    [Ev 496 SceneManagerTerminate; Ev 499 WindowFinish; Ev 502 SceneClear;
     Ev 503 (SceneManagerUpdate true); Ev 504 WindowFinish;
     Ev 507 ThreadJoin; Ev 510 LogDone].
Proof.
  split; [reflexivity|].
  apply (proj1 (shutdown_order Sample.all_ok Sample.terminated_at_2 5 0)).
  reflexivity.
Defined.

(** A 2x2 texture of frame 1. *)
Lemma create_image_sample :
  exists img, @Image.create_image Sample.consts Sample.libm 2 1 = Py.Ok img /\
    Image.size img = 2%nat /\ length (Image.texels img) = 4%nat.
Proof.
  destruct (proj2 (@create_image_deterministic_bytes Sample.consts Sample.libm 2 1
                     sample_pi_range clipped_cos_range)) as [img [E [S [L _]]]].
  exists img. split; [exact E|]. split; [exact S | exact L].
Defined.

(** * Part 3: further properties *)

(** ** create_mesh: the quads *)
Section QuadFacts.
Import Mesh.
Local Open Scope nat_scope.
Variable steps : Vector2u.

Lemma corners_lookup i j c v :
  Obs.corners steps i j !! c = Some v -> c < 4.
Proof.
  intros E. apply lookup_lt_Some in E. exact E.
Qed.

Lemma set_quad_exact i j st :
  i < x steps -> j < y steps -> Obs.indices_exact steps (j * x steps + i) st ->
  exists st', set_quad steps i j st = Py.Ok st' /\
              Obs.indices_exact steps (j * x steps + Datatypes.S i) st'.
Proof.
  intros Hi Hj. destruct st as [index b]. intros [Hx [Hl Hq]].
  cbn [fst snd] in Hx, Hl, Hq. subst index.
  set (k := j * x steps + i) in *.
  assert (Hk : 4 * k + 4 <= x steps * y steps * 4) by (unfold k; nia).
  unfold set_quad, indices_set.
  destruct (decide (4 * k + 4 <= length b)) as [_|N]; [|lia].
  eexists. split; [reflexivity|].
  replace (j * x steps + Datatypes.S i) with (Datatypes.S k) by (unfold k; lia).
  split; [cbn [fst]; lia|]. cbn [snd]. split.
  - rewrite length_inserts. exact Hl.
  - intros q c v Hq' Hc. pose proof (corners_lookup _ _ _ _ Hc) as Hc4.
    destruct (decide (q < k)) as [Lt|Ge].
    + rewrite list_lookup_inserts_lt by lia. apply Hq; assumption.
    + assert (q = k) by lia. subst q.
      rewrite list_lookup_inserts by (cbn [length]; lia).
      replace (4 * k + c - 4 * k) with c by lia.
      assert (Em : k mod x steps = i).
      { unfold k. replace (j * x steps + i) with (i + j * x steps) by lia.
        rewrite Nat.Div0.mod_add. apply Nat.mod_small. exact Hi. }
      assert (Ed : k / x steps = j).
      { unfold k. replace (j * x steps + i) with (i + j * x steps) by lia.
        rewrite Nat.div_add by lia. rewrite Nat.div_small by exact Hi. reflexivity. }
      rewrite Em, Ed in Hc. unfold Obs.corners in Hc. cbv zeta in Hc.
      destruct c as [|[|[|[|c]]]]; cbn in Hc |- *; try (injection Hc as <-; reflexivity).
      lia.
Qed.

Lemma index_loop_exact :
  exists st,
    Py.for_range (y steps) (fun j =>
      Py.for_range (x steps) (fun i => set_quad steps i j))
      (0, MeshIndices (x steps * y steps * 4))
    = Py.Ok st /\ Obs.indices_exact steps (x steps * y steps) st.
Proof.
  destruct (for_range_inv (fun j st => Obs.indices_exact steps (j * x steps) st) (y steps)
              (fun j => Py.for_range (x steps) (fun i => set_quad steps i j))
              (0, MeshIndices (x steps * y steps * 4))) as [st [E I]].
  - split; [reflexivity|].
    split; [apply length_replicate | intros q c v Hq; simpl in Hq; lia].
  - intros j st Hj Ij.
    replace (Datatypes.S j * x steps) with (j * x steps + x steps) by lia.
    apply (for_range_inv (fun i st => Obs.indices_exact steps (j * x steps + i) st)).
    + replace (j * x steps + 0) with (j * x steps) by lia. exact Ij.
    + intros i st0 Hi Ii. apply set_quad_exact; [exact Hi | exact Hj | exact Ii].
  - exists st. split; [exact E|].
    replace (x steps * y steps) with (y steps * x steps) by lia. exact I.
Qed.

End QuadFacts.



(** ** create_image: the frame number *)

Lemma lxor_mod_pow2 a b n :
  0 <= n -> Z.lxor a b mod 2 ^ n = Z.lxor (a mod 2 ^ n) (b mod 2 ^ n).
Proof.
  intros Hn. apply Z.bits_inj'. intros i Hi. rewrite Z.lxor_spec.
  destruct (Z_lt_le_dec i n) as [L|G].
  - rewrite !Z.mod_pow2_bits_low by lia. rewrite Z.lxor_spec. reflexivity.
  - rewrite !Z.mod_pow2_bits_high by lia. reflexivity.
Qed.

Lemma pattern_frame_mod x y f g :
  f mod 256 = g mod 256 -> Image.pattern x y f = Image.pattern x y g.
Proof.
  intros E. unfold Image.pattern. change 255 with (Z.ones 8).
  rewrite !Z.land_ones by lia. change (2 ^ 8) with 256.
  assert (L : forall z, Z.lxor f z mod 256 = Z.lxor g z mod 256).
  { intros z. change 256 with (2 ^ 8). rewrite !lxor_mod_pow2 by lia.
    change (2 ^ 8) with 256. rewrite E. reflexivity. }
  change 256 with (2 ^ 8). rewrite !lxor_mod_pow2 by lia. change (2 ^ 8) with 256.
  rewrite <- (Zminus_mod_idemp_r x (Z.lxor f y)), <- (Zminus_mod_idemp_r x (Z.lxor g y)).
  rewrite <- (Zplus_mod_idemp_r (Z.lxor f x) y), <- (Zplus_mod_idemp_r (Z.lxor g x) y).
  rewrite (L y), (L x). reflexivity.
Qed.

Lemma for_range_ext {S : Type} (n : nat) (f g : nat -> S -> Py.result S) (s : S) :
  (forall i s0, f i s0 = g i s0) -> Py.for_range n f s = Py.for_range n g s.
Proof.
  intros E. induction n as [|n IH]; [reflexivity|].
  rewrite !for_range_S, IH. destruct (Py.for_range n g s) as [s1|e]; [|reflexivity].
  apply E.
Qed.

(** X3.  The image depends on the frame number only through its residue
    modulo 256: the texture animation repeats every 256 frames. *)
Theorem create_image_frame_period `{Tellusimd} `{Libm} (n : nat) (f g : Z) :
  f mod 256 = g mod 256 ->
  Image.create_image n f = Image.create_image n g.
Proof.
  intros E. unfold Image.create_image. f_equal.
  apply for_range_ext. intros y s. apply for_range_ext. intros x [color img].
  unfold Image.fill_texel, Image.phase.
  rewrite (pattern_frame_mod _ _ f g E). reflexivity.
Qed.

(** ** The interface width beyond the exact range *)

Lemma fl_is_round x r : Py.fl x = Some r -> r = Py.round64 x.
Proof.
  unfold Py.fl. cbv zeta. destruct (Qle_bool _ _); [discriminate|].
  intros E. injection E as <-. reflexivity.
Qed.

Lemma truediv_is_round a b q :
  Py.truediv a b = Py.Ok q -> b <> 0 /\ q = Py.round64 (inject_Z a / inject_Z b).
Proof.
  unfold Py.truediv. destruct (Z.eqb_spec b 0) as [?|N]; [discriminate|].
  destruct (Py.fl _) as [r|] eqn:F; [|discriminate].
  intros E. injection E as <-. split; [exact N | apply fl_is_round, F].
Qed.

Lemma Qdiv_le_mono_l a1 a2 b :
  0 < b -> a1 <= a2 -> (inject_Z a1 / inject_Z b <= inject_Z a2 / inject_Z b)%Q.
Proof.
  intros Hb Ha. unfold Qdiv. apply Qmult_le_compat_r.
  - rewrite <- Zle_Qle. exact Ha.
  - apply Qlt_le_weak, Qinv_lt_0_compat.
    change 0%Q with (inject_Z 0). rewrite <- Zlt_Qlt. exact Hb.
Qed.

Section WidthFacts.
Import Frame.

(** X4.  Whenever the exact width is below 2^53 - 1, the computed width
    is the exact one or the exact one plus one: rounding the quotient
    never makes the interface narrower, and never wider by more than one
    unit. *)
Theorem derived_width_within_one env height :
  0 <= height -> 0 <= window_width env -> 0 < window_height env ->
  height * window_width env / window_height env + 1 < 2 ^ 53 ->
  exists w, derived_width env height = Py.Ok w /\
    height * window_width env / window_height env <= w
      <= height * window_width env / window_height env + 1.
Proof.
  intros Hh Hw Hwh B.
  set (a := height * window_width env) in *. set (b := window_height env) in *.
  set (n := a / b) in *.
  assert (Ha : 0 <= a) by (unfold a; nia).
  assert (Hn : 0 <= n) by (apply Z.div_pos; lia).
  assert (Hdiv : n * b <= a < (n + 1) * b).
  { pose proof (Z.mul_div_le a b Hwh) as D1.
    pose proof (Z.mul_succ_div_gt a b Hwh) as D2. fold n in D1, D2. lia. }
  assert (Ib : (0 < inject_Z b)%Q)
    by (change 0%Q with (inject_Z 0); rewrite <- Zlt_Qlt; exact Hwh).
  assert (Ex : (inject_Z a / inject_Z b * inject_Z b == inject_Z a)%Q) by (field; lra).
  destruct (fl_bounded (inject_Z a / inject_Z b) n (n + 1)) as [q [Fq [_ [Q1 Q2]]]];
    [| lia | lia |].
  { split.
    - apply (Qmult_le_r _ _ (inject_Z b) Ib).
      rewrite Ex, <- inject_Z_mult, <- Zle_Qle. lia.
    - apply (Qmult_le_r _ _ (inject_Z b) Ib).
      rewrite Ex, <- inject_Z_mult, <- Zle_Qle. lia. }
  exists (Qfloor q). split.
  - unfold derived_width, Py.truediv. fold a b.
    destruct (Z.eqb_spec b 0) as [?|_]; [lia|]. rewrite Fq. reflexivity.
  - split.
    + rewrite <- (Qfloor_Z n). apply Qfloor_resp_le. exact Q1.
    + rewrite <- (Qfloor_Z (n + 1)). apply Qfloor_resp_le. exact Q2.
Qed.

(** X5.  For a fixed window height and interface height, a wider window
    never gets a narrower interface, whatever the sizes: the computed
    width is monotone in the window width. *)
Theorem derived_width_monotone env1 env2 height w1 w2 :
  0 <= height -> 0 < window_height env1 ->
  window_height env2 = window_height env1 ->
  window_width env1 <= window_width env2 ->
  derived_width env1 height = Py.Ok w1 ->
  derived_width env2 height = Py.Ok w2 ->
  w1 <= w2.
Proof.
  intros Hh Hwh Eh Hw. unfold derived_width. rewrite Eh.
  destruct (Py.truediv (height * window_width env1) _) as [q1|] eqn:T1; [|discriminate].
  destruct (Py.truediv (height * window_width env2) _) as [q2|] eqn:T2; [|discriminate].
  cbn [mbind mret Py.result_bind Py.result_ret].
  intros E1 E2. injection E1 as <-. injection E2 as <-.
  apply truediv_is_round in T1 as [_ ->]. apply truediv_is_round in T2 as [_ ->].
  apply Qfloor_resp_le, round64_mono, Qdiv_le_mono_l; [exact Hwh | nia].
Qed.

(** X6.  The button state handed to [root.setMouse] has one of two
    values: [Control.ButtonNone] when neither left button is down, and
    [Control.ButtonNone | Control.ButtonLeft] when either or both are. *)
Theorem mouse_button_values `{Tellusimd} env :
  mouse_button env =
    if (Z.land (mouse_buttons env) Window_ButtonLeft =? 0)
       && (Z.land (mouse_buttons env) Window_ButtonLeft2 =? 0)
    then Control_ButtonNone
    else Z.lor Control_ButtonNone Control_ButtonLeft.
Proof.
  unfold mouse_button. cbv zeta.
  destruct (Z.land (mouse_buttons env) Window_ButtonLeft =? 0);
    destruct (Z.land (mouse_buttons env) Window_ButtonLeft2 =? 0); cbn [andb];
    try reflexivity.
  rewrite <- Z.lor_assoc, Z.lor_diag. reflexivity.
Qed.

End WidthFacts.

(** ** main_loop: the paths not set out above *)

Lemma abs_mul_bound x y A B :
  0 <= A -> 0 <= B -> Z.abs x <= 2 ^ A -> Z.abs y <= 2 ^ B ->
  Z.abs (x * y) <= 2 ^ (A + B).
Proof.
  intros HA HB Hx Hy. rewrite Z.abs_mul, Z.pow_add_r by lia.
  apply Z.mul_le_mono_nonneg; lia.
Qed.

(** A quotient of integers of moderate size is a finite float. *)
Lemma truediv_finite a b B :
  b <> 0 -> 0 <= B <= 1023 -> Z.abs a <= 2 ^ B ->
  exists q, Py.truediv a b = Py.Ok q /\ - 2 ^ B <= Qfloor q <= 2 ^ B.
Proof.
  intros Hb HB Ha.
  assert (P : (0 < Py.pow2 B)%Q) by apply pow2_pos.
  assert (R : (Py.round64 (Py.pow2 B) == Py.pow2 B)%Q).
  { pose proof (round64_exact 1 B ltac:(lia) ltac:(lia)) as E.
    assert (I : (inject_Z 1 * Py.pow2 B == Py.pow2 B)%Q) by ring.
    rewrite <- I at 2. rewrite <- E. apply round64_comp. symmetry. exact I. }
  assert (R' : (Py.round64 (- Py.pow2 B) == - Py.pow2 B)%Q).
  { pose proof (round64_exact (-1) B ltac:(lia) ltac:(lia)) as E.
    assert (I : (inject_Z (-1) * Py.pow2 B == - Py.pow2 B)%Q) by ring.
    rewrite <- I at 2. rewrite <- E. apply round64_comp. symmetry. exact I. }
  assert (L : (Py.pow2 B < Py.pow2 1024)%Q) by (apply pow2_lt; lia).
  assert (X : (- Py.pow2 B <= inject_Z a / inject_Z b <= Py.pow2 B)%Q).
  { rewrite (pow2_Z B) by lia. rewrite <- inject_Z_opp.
    assert (Ib : ~ (inject_Z b == 0)%Q).
    { change 0%Q with (inject_Z 0). rewrite inject_Z_injective. exact Hb. }
    destruct (Z_lt_le_dec 0 b) as [Pb|Nb].
    - assert (Ib' : (0 < inject_Z b)%Q)
        by (change 0%Q with (inject_Z 0); rewrite <- Zlt_Qlt; exact Pb).
      split.
      + apply Qle_shift_div_l; [exact Ib'|].
        rewrite <- inject_Z_mult, <- Zle_Qle. nia.
      + apply Qle_shift_div_r; [exact Ib'|].
        rewrite <- inject_Z_mult, <- Zle_Qle. nia.
    - assert (Ib' : (0 < inject_Z (- b))%Q)
        by (change 0%Q with (inject_Z 0); rewrite <- Zlt_Qlt; lia).
      assert (E : (inject_Z a / inject_Z b == inject_Z (- a) / inject_Z (- b))%Q).
      { rewrite !inject_Z_opp. field. exact Ib. }
      rewrite E. split.
      + apply Qle_shift_div_l; [exact Ib'|].
        rewrite <- inject_Z_mult, <- Zle_Qle. nia.
      + apply Qle_shift_div_r; [exact Ib'|].
        rewrite <- inject_Z_mult, <- Zle_Qle. nia. }
  destruct (fl_between (inject_Z a / inject_Z b) (- Py.pow2 B) (Py.pow2 B))
    as [q [Fq [_ [Q1 Q2]]]]; [exact X | exact R' | exact R | lra | lra |].
  exists q. split.
  - unfold Py.truediv. destruct (Z.eqb_spec b 0) as [?|_]; [contradiction|].
    rewrite Fq. reflexivity.
  - rewrite (pow2_Z B) in Q1, Q2 by lia. rewrite <- inject_Z_opp in Q1. split.
    + rewrite <- (Qfloor_Z (- 2 ^ B)). apply Qfloor_resp_le. exact Q1.
    + rewrite <- (Qfloor_Z (2 ^ B)). apply Qfloor_resp_le. exact Q2.
Qed.

Lemma truediv_zero a : Py.truediv a 0 = Py.Raise Py.ZeroDivisionError.
Proof. reflexivity. Qed.

Section ControlsFacts.
Import Frame.

Lemma controls_trace_root n : Forall is_root_update (Obs.controls_trace n).
Proof.
  unfold Obs.controls_trace. apply Forall_app. split.
  - apply Forall_forall. intros e He. apply elem_of_replicate in He as [-> _].
    split; [reflexivity | eexists; reflexivity].
  - constructor; [split; [reflexivity | eexists; reflexivity] | constructor].
Qed.

Lemma calls_controls_trace n :
  calls Obs.is_root_update_call (Obs.controls_trace n) =
  replicate n (RootUpdate true) ++ [RootUpdate false].
Proof.
  unfold Obs.controls_trace. induction n as [|n IH]; [reflexivity|].
  cbn [replicate app calls what Obs.is_root_update_call]. rewrite IH. reflexivity.
Qed.

(** The interface loop either is still running when the fuel is spent,
    every answer so far having been True, or has ended at the first
    False. *)
Lemma update_controls_outcome env fuel k st :
  exists t,
    Forall is_root_update t /\
    ((update_controls env fuel k st = (t ++ [], st, Stop Spinning) /\
      forall j, (k <= j < k + fuel)%nat -> root_update env j = true) \/
     (update_controls env fuel k st = (t, st, Next tt) /\
      exists n, (n < fuel)%nat /\ root_update env (k + n) = false /\
                (forall j, (k <= j < k + n)%nat -> root_update env j = true) /\
                t = Obs.controls_trace n)).
Proof.
  revert k. induction fuel as [|fuel IH]; intros k.
  - exists []. split; [constructor|]. left. split; [reflexivity | intros j Hj; lia].
  - cbn [update_controls]. destruct (root_update env k) eqn:R.
    + destruct (IH (S k)) as [t [Ft [[E A]|[E [n (Hn & Hf & Ht & ->)]]]]].
      * exists (Ev 452 (RootUpdate true) :: t). split.
        { constructor; [split; [reflexivity | eexists; reflexivity] | exact Ft]. }
        left. split.
        -- unfold mbind, M_bind, emit. rewrite E. reflexivity.
        -- intros j Hj. destruct (Nat.eq_dec j k) as [->|]; [exact R | apply A; lia].
      * exists (Obs.controls_trace (S n)). split; [apply controls_trace_root|].
        right. split.
        -- unfold mbind, M_bind, emit. rewrite E. reflexivity.
        -- exists (S n). split; [lia|]. split.
           ++ replace (k + S n)%nat with (S k + n)%nat by lia. exact Hf.
           ++ split; [|reflexivity].
              intros j Hj. destruct (Nat.eq_dec j k) as [->|]; [exact R | apply Ht; lia].
    + exists (Obs.controls_trace 0). split; [apply controls_trace_root|].
      right. split; [reflexivity|].
      exists 0%nat. split; [lia|]. split.
      * rewrite Nat.add_0_r. exact R.
      * split; [intros j Hj; lia | reflexivity].
Qed.

Lemma update_controls_done env fuel n st :
  Obs.first_false (root_update env) n -> (n < fuel)%nat ->
  update_controls env fuel 0 st = (Obs.controls_trace n, st, Next tt).
Proof.
  intros [Hf Ht] Hn.
  destruct (update_controls_outcome env fuel 0 st)
    as [t [_ [[_ A]|[E [n' (Hn' & Hf' & Ht' & ->)]]]]].
  - rewrite A in Hf by lia. discriminate Hf.
  - cbn [Nat.add] in Hf', Ht'.
    assert (n' = n).
    { destruct (Nat.lt_trichotomy n' n) as [L|[Eq|G]]; [|exact Eq|].
      - rewrite Ht in Hf' by exact L. discriminate Hf'.
      - rewrite Ht' in Hf by lia. discriminate Hf. }
    subst n'. exact E.
Qed.

End ControlsFacts.

Ltac path_unfold :=
  cbv beta iota zeta delta
    [Frame.result Frame.trace Frame.after Frame.run Frame.main_loop mbind mret Frame.M_bind Frame.M_ret Frame.emit Frame.stop Frame.get Frame.put
     Frame.check Frame.lift Frame.update_scene Frame.resize_frame Frame.update_texture Frame.dispatch_scene
     Frame.draw_deferred Frame.dispatch_render Frame.update_interface Frame.window_target
     Frame.derived_width Py.result_bind Py.result_ret fst snd];
  cbn [app].

Ltac path_case :=
  match goal with
  | |- context [if Frame.window_render ?e then _ else _] =>
      destruct (Frame.window_render e) eqn:?
  | |- context [if negb ?a || negb ?b then _ else _] =>
      destruct (negb a || negb b) eqn:?
  | |- context [if Frame.frame_create ?e then _ else _] =>
      destruct (Frame.frame_create e) eqn:?
  | |- context [if Frame.texture_due ?e then _ else _] =>
      destruct (Frame.texture_due e) eqn:?
  | |- context [match Image.create_image ?a ?b with _ => _ end] =>
      destruct (Image.create_image a b) eqn:?
  | |- context [if Frame.scene_create ?e then _ else _] =>
      destruct (Frame.scene_create e) eqn:?
  | |- context [if Frame.manager_update ?e then _ else _] =>
      destruct (Frame.manager_update e) eqn:?
  | |- context [match Py.truediv (Frame.app_height ?e * Frame.window_width ?e) ?b with _ => _ end] =>
      destruct (Py.truediv (Frame.app_height e * Frame.window_width e) b) eqn:?
  | |- context [match Py.truediv (?w * Frame.mouse_x ?e) ?b with _ => _ end] =>
      destruct (Py.truediv (w * Frame.mouse_x e) b) eqn:?
  | |- context [match Py.truediv (?w * Frame.mouse_y ?e) ?b with _ => _ end] =>
      destruct (Py.truediv (w * Frame.mouse_y e) b) eqn:?
  | |- context [match Py.truediv (Py.floor ?a) ?b with _ => _ end] =>
      destruct (Py.truediv (Py.floor a) b) eqn:?
  | |- context [match Py.truediv ?a ?b with _ => _ end] =>
      destruct (Py.truediv a b) eqn:?
  | |- context [Frame.update_controls ?env ?fuel ?k ?s] =>
      let t := fresh "t" in let Ft := fresh "Ft" in
      let E := fresh "E" in let A := fresh "A" in
      let n := fresh "n" in let Hn := fresh "Hn" in
      let Hf := fresh "Hf" in let Ht := fresh "Ht" in let Et := fresh "Et" in
      destruct (update_controls_outcome env fuel k s)
        as [t [Ft [[E A]|[E [n (Hn & Hf & Ht & Et)]]]]];
      rewrite E; clear E
  | |- context [if Frame.target_begin ?e then _ else _] =>
      destruct (Frame.target_begin e) eqn:?
  | |- context [if Frame.window_present ?e then _ else _] =>
      destruct (Frame.window_present e) eqn:?
  | |- context [if Frame.device_check ?e then _ else _] =>
      destruct (Frame.device_check e) eqn:?
  end.

(** Every path through [main_loop], with what is known of the interface
    loop on each. *)
Ltac paths := path_unfold; repeat (path_case; path_unfold).

(** The same, with [tac] tried first at every step. *)
Ltac paths_with tac := path_unfold; repeat (first [tac | path_case]; path_unfold).

Ltac split_at t l :=
  lazymatch l with
  | t ++ ?rest => constr:((@nil event, rest))
  | ?pre ++ t ++ ?rest => constr:((pre, rest))
  | ?e :: ?l' =>
      lazymatch split_at t l' with
      | (?pre, ?rest) => constr:((e :: pre, rest))
      end
  | t => constr:((@nil event, @nil event))
  end.

Ltac shape_at t l :=
  lazymatch split_at t l with
  | (?pre, ?rest) => change l with (pre ++ t ++ rest)
  end.

(** Drop the calls of the interface loop from the observations. *)
Ltac drop_loop :=
  rewrite <- ?app_assoc; cbn [app];
  repeat match goal with
  | Ft : Forall Frame.is_root_update ?t |- context [calls ?p ?l] =>
      shape_at t l; rewrite (calls_root_update p _ t _ Ft) by (intros; reflexivity)
  | Ft : Forall Frame.is_root_update ?t |- context [between ?lo ?hi ?l] =>
      shape_at t l; rewrite (between_root_update lo hi _ t _ Ft) by reflexivity
  end.

Section PathFacts.
Import Frame.
Context `{Tellusimd} `{Libm}.

(** What every iteration does with its compute scopes, its presentation
    bracket and its texture counters. *)
Lemma frame_summary fuel env st :
  let t := trace fuel env st in
  (calls Obs.is_compute_scope t = [] \/
   calls Obs.is_compute_scope t = [DeviceCreateCompute; ComputeRelease] \/
   calls Obs.is_compute_scope t =
     [DeviceCreateCompute; ComputeRelease; DeviceCreateCompute; ComputeRelease]) /\
  ((calls Obs.is_bracket t = [] /\ between 459 483 t = []) \/
   (calls Obs.is_bracket t = [TargetBegin false] /\ between 459 483 t = []) \/
   (calls Obs.is_bracket t = [TargetBegin true; TargetEnd] /\
    between 459 483 t = Obs.draw_group)) /\
  ((calls Obs.is_create_image t = [] \/
    calls Obs.is_create_image t = [CreateImage 128 (Z.of_nat (texture_frame st))]) /\
   (length (calls Obs.is_set_texture t) <= length (calls Obs.is_create_image t))%nat /\
   texture_ticks (after fuel env st) =
     (texture_ticks st + length (calls Obs.is_create_image t))%nat /\
   texture_frame (after fuel env st) =
     (texture_frame st + length (calls Obs.is_set_texture t))%nat).
Proof.
  paths; cbv zeta; drop_loop.
  all: split; [|split];
    [ first [ left; reflexivity | right; left; reflexivity | right; right; reflexivity ]
    | first [ left; split; reflexivity | right; left; split; reflexivity
            | right; right; split; reflexivity ]
    | lazy beta iota zeta delta
        [calls what Obs.is_create_image Obs.is_set_texture length app
         texture_ticks texture_frame];
      split; [first [left; reflexivity | right; reflexivity] | repeat split; lia] ].
Qed.

End PathFacts.

(** A product scaled down by a ratio of at most one stays below the
    factor. *)
Lemma truediv_scaled a m b :
  0 <= a < 2 ^ 53 -> 0 < b -> 0 <= m <= b ->
  exists q, Py.truediv (a * m) b = Py.Ok q /\ (0 <= q <= inject_Z a)%Q.
Proof.
  intros Ha Hb Hm.
  assert (Ib : (0 < inject_Z b)%Q)
    by (change 0%Q with (inject_Z 0); rewrite <- Zlt_Qlt; exact Hb).
  assert (Ex : (inject_Z (a * m) / inject_Z b * inject_Z b == inject_Z (a * m))%Q)
    by (field; lra).
  destruct (fl_bounded (inject_Z (a * m) / inject_Z b) 0 a) as [q [Fq [_ Q]]];
    [| lia | lia |].
  { split.
    - apply (Qmult_le_r _ _ (inject_Z b) Ib).
      rewrite Ex, <- inject_Z_mult, <- Zle_Qle. nia.
    - apply (Qmult_le_r _ _ (inject_Z b) Ib).
      rewrite Ex, <- inject_Z_mult, <- Zle_Qle. nia. }
  exists q. split; [|exact Q].
  unfold Py.truediv. destruct (Z.eqb_spec b 0) as [?|_]; [lia|].
  rewrite Fq. reflexivity.
Qed.

Lemma create_image_returns `{Tellusimd} `{Libm} (n : nat) (frame : Z) :
  (3 <= Pi <= 4)%Q -> (forall s, -1 <= math_cos s <= 1)%Q ->
  exists img, Image.create_image n frame = Py.Ok img.
Proof.
  intros HPi Hcos. destruct (texel_loop n frame HPi Hcos) as [st [E _]].
  exists st.2. unfold Image.create_image. cbv zeta. rewrite E. reflexivity.
Qed.

Lemma first_false_unique (f : nat -> bool) (n m : nat) :
  Obs.first_false f n -> f m = false -> (forall j, (j < m)%nat -> f j = true) ->
  m = n.
Proof.
  intros [Hf Ht] Hm Hb.
  destruct (Nat.lt_trichotomy m n) as [L|[E|G]]; [|exact E|].
  - rewrite Ht in Hm by exact L. discriminate Hm.
  - rewrite Hb in Hf by exact G. discriminate Hf.
Qed.

Section PathTheorems.
Import Frame.
Context `{Tellusimd} `{Libm}.

(** X7.  In a frame of a window of positive size whose pointer lies
    inside the window, with [height * window width + window height] at
    most 2^52, the pointer position handed to [root.setMouse] (line 451)
    lies inside the viewport handed to [root.setViewport] on the line
    before: [0 <= mouse_x <= width] and [0 <= mouse_y <= height]; the
    button state is the one computed at lines 440-442. *)
Theorem pointer_within_viewport fuel env st w h mx my b :
  0 < window_width env -> 0 < window_height env -> 0 <= app_height env ->
  app_height env * window_width env + window_height env <= 2 ^ 52 ->
  0 <= mouse_x env <= window_width env ->
  0 <= mouse_y env <= window_height env ->
  calls is_set_viewport (trace fuel env st) = [RootSetViewport w h] ->
  calls Obs.is_set_mouse (trace fuel env st) = [RootSetMouse mx my b] ->
  (0 <= mx <= inject_Z w)%Q /\ (0 <= my <= inject_Z h)%Q /\ b = mouse_button env.
Proof.
  intros Hw Hh Ha B Hx Hy.
  assert (Ba : app_height env <= 2 ^ 52) by nia.
  destruct (truediv_floor (app_height env * window_width env) (window_height env))
    as [r1 [F1 W]]; [nia | exact Hh | exact B |].
  assert (E1 : Py.truediv (app_height env * window_width env) (window_height env)
               = Py.Ok r1).
  { unfold Py.truediv. destruct (Z.eqb_spec (window_height env) 0) as [?|_]; [lia|].
    rewrite F1. reflexivity. }
  assert (Bw : 0 <= Py.floor r1 <= 2 ^ 52).
  { unfold Py.floor. rewrite W. split; [apply Z.div_pos; nia|].
    transitivity (app_height env * window_width env); [|lia].
    apply Z.div_le_upper_bound; nia. }
  destruct (truediv_scaled (Py.floor r1) (mouse_x env) (window_width env))
    as [q2 [E2 Q2]]; [lia | exact Hw | exact Hx |].
  destruct (truediv_scaled (app_height env) (mouse_y env) (window_height env))
    as [q3 [E3 Q3]]; [lia | exact Hh | exact Hy |].
  destruct (truediv_finite (Py.floor r1) (window_width env) 52)
    as [q4 [E4 _]]; [lia | lia | lia |].
  destruct (truediv_finite (app_height env) (window_height env) 52)
    as [q5 [E5 _]]; [lia | lia | lia |].
  paths_with ltac:(progress (rewrite ?E1, ?E2, ?E3, ?E4, ?E5)).
  all: cbv zeta; drop_loop;
    lazy beta iota zeta delta [calls what is_set_viewport Obs.is_set_mouse app];
    intros V Ms; try discriminate V.
  all: injection V as <- <-; injection Ms as <- <- <-.
  all: split; [exact Q2 | split; [exact Q3 | reflexivity]].
Qed.

Lemma phases_repeat p l : phases (p :: p :: l) = phases (p :: l).
Proof.
  rewrite (phases_cons p (p :: l)).
  destruct (phases_head p l) as [r ->].
  destruct (decide (p = p)) as [_|N]; [reflexivity | contradiction].
Qed.

(** The calls of line 452 stay in the phase of the call before them. *)
Lemma phases_after_interface pre e t rest :
  Forall is_root_update t -> phase_of e = UIUpdate ->
  phases (map phase_of (pre ++ e :: t ++ rest)) =
  phases (map phase_of (pre ++ e :: rest)).
Proof.
  intros Ft He.
  assert (E : phases (map phase_of (e :: t ++ rest)) = phases (map phase_of (e :: rest))).
  { induction Ft as [|a t [El _] _ IH]; [reflexivity|].
    cbn [app map] in *. rewrite He in *.
    replace (phase_of a) with UIUpdate by (unfold phase_of; rewrite El; reflexivity).
    rewrite phases_repeat. exact IH. }
  induction pre as [|a pre IH]; [exact E|].
  cbn [app map]. rewrite !phases_cons, IH. reflexivity.
Qed.

Ltac split_before t l :=
  lazymatch l with
  | ?e :: t ++ ?rest => constr:((@nil event, e, rest))
  | ?a :: ?l' =>
      lazymatch split_before t l' with
      | (?pre, ?e, ?rest) => constr:((a :: pre, e, rest))
      end
  end.

Ltac drop_loop_phases :=
  rewrite <- ?app_assoc; cbn [app];
  try match goal with
  | Ft : Forall is_root_update ?t |- context [map phase_of ?l] =>
      lazymatch split_before t l with
      | (?pre, ?e, ?rest) =>
          change l with (pre ++ e :: t ++ rest);
          rewrite (phases_after_interface pre e t rest Ft) by reflexivity
      end
  end.

(** X8.  However an iteration ends (True, False, an exception, or still
    inside the loop of line 452), the phases it has entered are an initial
    segment of PresentPoll, scene update, early dispatch, deferred draw,
    late dispatch, UI update, Present: no phase is entered before the ones
    that precede it, and none is entered twice. *)
Theorem phases_in_order fuel env st :
  exists k, phases (map phase_of (trace fuel env st)) = take k all_phases.
Proof.
  paths; cbv zeta; drop_loop_phases.
  all: first
    [ exists 1%nat; reflexivity | exists 2%nat; reflexivity
    | exists 3%nat; reflexivity | exists 4%nat; reflexivity
    | exists 5%nat; reflexivity | exists 6%nat; reflexivity
    | exists 7%nat; reflexivity ].
Qed.

(** X9.  The compute scopes of an iteration are balanced and never
    nested: every [device.createCompute()] (lines 392, 420) is followed
    by its release (lines 404, 428) before the next one is created, and
    an iteration opens none, one or two of them. *)
Theorem compute_scopes_balanced fuel env st :
  let t := trace fuel env st in
  calls Obs.is_compute_scope t = [] \/
  calls Obs.is_compute_scope t = [DeviceCreateCompute; ComputeRelease] \/
  calls Obs.is_compute_scope t =
    [DeviceCreateCompute; ComputeRelease; DeviceCreateCompute; ComputeRelease].
Proof. exact (proj1 (frame_summary fuel env st)). Qed.

(** X10.  The presentation bracket of an iteration has one of three
    forms: [target.begin()] is not reached and nothing of lines 459-483
    runs; it fails and nothing of lines 459-483 runs; or it succeeds and
    lines 460-483 run in full, one command with the background triangle
    ([drawElements(3)]) and the canvas, closed by [target.end()]. *)
Theorem presentation_bracket fuel env st :
  let t := trace fuel env st in
  (calls Obs.is_bracket t = [] /\ between 459 483 t = []) \/
  (calls Obs.is_bracket t = [TargetBegin false] /\ between 459 483 t = []) \/
  (calls Obs.is_bracket t = [TargetBegin true; TargetEnd] /\
   between 459 483 t = Obs.draw_group).
Proof. exact (proj1 (proj2 (frame_summary fuel env st))). Qed.

(** X11.  An iteration creates at most one image, of size 128 and of the
    frame number [texture_frame] has on entry; [texture_time] advances by
    one [texture_ifps] exactly when an image is created (line 368), and
    [texture_frame] advances by one exactly when the image has been handed
    to the material (lines 370-372), which happens at most as often. *)
Theorem texture_counters fuel env st :
  let t := trace fuel env st in
  (calls Obs.is_create_image t = [] \/
   calls Obs.is_create_image t = [CreateImage 128 (Z.of_nat (texture_frame st))]) /\
  (length (calls Obs.is_set_texture t) <= length (calls Obs.is_create_image t))%nat /\
  texture_ticks (after fuel env st) =
    (texture_ticks st + length (calls Obs.is_create_image t))%nat /\
  texture_frame (after fuel env st) =
    (texture_frame st + length (calls Obs.is_set_texture t))%nat.
Proof. exact (proj2 (proj2 (frame_summary fuel env st))). Qed.

(** X12.  In a window of zero width or zero height, an iteration that
    gets as far as the deferred draw ends with a ZeroDivisionError raised
    at line 435 or 436: no interface call is made, [target.begin()] is not
    called and nothing is presented. *)
Theorem zero_size_window_raises fuel env st :
  window_width env = 0 \/ window_height env = 0 ->
  calls is_deferred_draw (trace fuel env st) <> [] ->
  result fuel env st = Raised Py.ZeroDivisionError /\
  calls Obs.is_interface_call (trace fuel env st) = [] /\
  calls Obs.is_bracket (trace fuel env st) = [] /\
  calls is_present (trace fuel env st) = [].
Proof.
  intros Z0.
  destruct (Z.eq_dec (window_height env) 0) as [Hh|Hh].
  - paths_with ltac:(progress (rewrite ?Hh, ?truediv_zero)).
    all: cbv zeta; first
      [ intros N; exfalso; apply N; reflexivity
      | intros _; repeat split; reflexivity ].
  - destruct Z0 as [Hw|Hh']; [|contradiction].
    destruct (truediv_finite (app_height env * 0) (window_height env) 0)
      as [q0 [Eq0 _]]; [exact Hh | lia | rewrite Z.mul_0_r; cbn; lia |].
    paths_with ltac:(progress (rewrite ?Hw, ?Eq0, ?truediv_zero)).
    all: cbv zeta; first
      [ intros N; exfalso; apply N; reflexivity
      | intros _; repeat split; reflexivity ].
Qed.

(** X13.  With a window of nonzero width and height, interface height,
    window width and pointer coordinates of at most 32 bits, and [Pi] and
    [math.cos] in their ranges, no exception leaves [main_loop]: the
    iteration returns True or False, or is still inside the loop of line
    452. *)
Theorem main_loop_never_raises fuel env st :
  (3 <= Pi <= 4)%Q -> (forall s, -1 <= math_cos s <= 1)%Q ->
  window_width env <> 0 -> window_height env <> 0 ->
  Obs.int32_inputs env ->
  forall e, result fuel env st <> Raised e.
Proof.
  intros HPi Hcos Hw Hh (Ba & Bw & Bx & By) e.
  pose proof (fun f => create_image_returns 128 f HPi Hcos) as Hci.
  destruct (truediv_finite (app_height env * window_width env) (window_height env) 64)
    as [q1 [E1 F1]]; [exact Hh | lia | apply (abs_mul_bound _ _ 32 32); lia |].
  destruct (truediv_finite (Py.floor q1 * mouse_x env) (window_width env) 96)
    as [q2 [E2 _]];
    [exact Hw | lia | apply (abs_mul_bound _ _ 64 32); unfold Py.floor; lia |].
  destruct (truediv_finite (app_height env * mouse_y env) (window_height env) 64)
    as [q3 [E3 _]]; [exact Hh | lia | apply (abs_mul_bound _ _ 32 32); lia |].
  destruct (truediv_finite (Py.floor q1) (window_width env) 64)
    as [q4 [E4 _]]; [exact Hw | lia | unfold Py.floor; lia |].
  destruct (truediv_finite (app_height env) (window_height env) 32)
    as [q5 [E5 _]]; [exact Hh | lia | lia |].
  paths_with ltac:(first
    [ progress (rewrite ?E1, ?E2, ?E3, ?E4, ?E5)
    | match goal with
      | |- context [Image.create_image ?a ?b] =>
          let img := fresh "img" in let E := fresh "E" in
          destruct (Hci b) as [img E]; rewrite E; clear E
      end ]).
  all: discriminate.
Qed.

(** X14.  If [root.update] answers True every time, an iteration that
    reaches the interface update never leaves the loop of line 452,
    however many calls are waited for: [target.begin()] is not reached and
    nothing is presented. *)
Theorem interface_loop_diverges fuel env st :
  (forall k, root_update env k = true) ->
  calls is_set_viewport (trace fuel env st) <> [] ->
  result fuel env st = Spinning /\
  calls Obs.is_bracket (trace fuel env st) = [] /\
  calls is_present (trace fuel env st) = [].
Proof.
  intros Hall. paths; cbv zeta; drop_loop.
  all: first
    [ intros N; exfalso; apply N; reflexivity
    | match goal with Hf : root_update _ _ = false |- _ =>
        rewrite Hall in Hf; discriminate Hf end
    | intros _; repeat split; reflexivity ].
Qed.

Lemma bind_ext_l {A B} (f : A -> M B) (m1 m2 : M A) s :
  m1 s = m2 s -> (m1 ≫= f) s = (m2 ≫= f) s.
Proof. unfold mbind, M_bind. intros ->. reflexivity. Qed.

Lemma bind_ext_r {A B} (f1 f2 : A -> M B) (m : M A) s :
  (forall a s', f1 a s' = f2 a s') -> (m ≫= f1) s = (m ≫= f2) s.
Proof.
  intros E. unfold mbind, M_bind. destruct (m s) as [[t1 s1] [a|o]]; [|reflexivity].
  rewrite E. reflexivity.
Qed.

(** Past the first False of [root.update] the bound on the observed calls
    plays no part. *)
Lemma main_loop_fuel env n fuel1 fuel2 st :
  Obs.first_false (root_update env) n -> (n < fuel1)%nat -> (n < fuel2)%nat ->
  main_loop env fuel1 st = main_loop env fuel2 st.
Proof.
  intros FF L1 L2. unfold main_loop.
  repeat first [ apply bind_ext_r; intros | apply bind_ext_l ].
  unfold update_interface. cbv zeta.
  repeat first [ apply bind_ext_r; intros | apply bind_ext_l ].
  rewrite (update_controls_done env fuel1 n) by assumption.
  rewrite (update_controls_done env fuel2 n) by assumption.
  reflexivity.
Qed.

Ltac loop_calls :=
  rewrite <- ?app_assoc; cbn [app];
  match goal with
  | Et : ?t = Obs.controls_trace ?n |- context [calls ?p ?l] =>
      shape_at t l;
      rewrite (calls_app p _ (t ++ _)), (calls_app p t _), Et, calls_controls_trace
  end;
  cbn [calls what Obs.is_root_update_call app]; rewrite ?app_nil_r.

(** X15.  If [root.update] first answers False at its call number [n]
    (counting from 0), an iteration that waits for more than [n] calls
    is not left inside the loop of line 452; when it reaches the interface
    update it calls [root.update] exactly [n + 1] times, [n] times with
    the answer True and once with the answer False; and its calls, final
    state and outcome are the same for every such bound. *)
Theorem interface_loop_ends fuel env st n :
  Obs.first_false (root_update env) n -> (n < fuel)%nat ->
  result fuel env st <> Spinning /\
  (calls is_set_viewport (trace fuel env st) <> [] ->
   calls Obs.is_root_update_call (trace fuel env st) =
     replicate n (RootUpdate true) ++ [RootUpdate false]) /\
  (forall fuel', (n < fuel')%nat -> run fuel' env st = run fuel env st).
Proof.
  intros FF Ln. split; [|split].
  - paths; cbv zeta; try discriminate.
    all: match goal with A : forall j, _ -> root_update _ j = true |- _ =>
           destruct FF as [Hf _]; rewrite A in Hf by lia; discriminate Hf end.
  - paths; cbv zeta.
    all: try (intros N; exfalso; apply N; reflexivity).
    all: try match goal with
             | A : forall j, (0 <= j < 0 + _)%nat -> root_update _ j = true |- _ =>
                 destruct FF as [Hf _]; rewrite A in Hf by lia; discriminate Hf
             end.
    all: intros _;
      match goal with
      | Hf : root_update _ (0 + ?m)%nat = false,
        Ht : forall j, _ -> root_update _ j = true |- _ =>
          assert (m = n)
            by (apply (first_false_unique _ n m FF Hf); intros j Hj; apply Ht; lia);
          subst m
      end;
      loop_calls; reflexivity.
  - intros fuel' Ln'. unfold run.
    rewrite (main_loop_fuel env n fuel' fuel st FF Ln' Ln). reflexivity.
Qed.

(** X16.  An iteration that calls [window.present()] has left the loop of
    line 452: [root.update] answered True some [n] times and then False,
    and these [n + 1] calls are all the [root.update] calls of the
    iteration. *)
Theorem presented_frame_left_loop fuel env st :
  calls is_present (trace fuel env st) <> [] ->
  exists n, (n < fuel)%nat /\ Obs.first_false (root_update env) n /\
    calls Obs.is_root_update_call (trace fuel env st) =
      replicate n (RootUpdate true) ++ [RootUpdate false].
Proof.
  paths; cbv zeta; drop_loop.
  all: try (intros N; exfalso; apply N; reflexivity).
  all: intros _;
    match goal with
    | Hn : (?m < _)%nat, Hf : root_update _ (0 + ?m)%nat = false,
      Ht : forall j, _ -> root_update _ j = true |- _ =>
        exists m; split; [exact Hn|]; split;
          [ split; [exact Hf | intros j Hj; apply Ht; lia] |]
    end;
    loop_calls; reflexivity.
Qed.

End PathTheorems.

(** ** process_callback: the bound on the observed turns *)
Section WorkerMore.
Import Worker.
Local Open Scope nat_scope.
Variable env : worker_env.

(** X17.  Once the worker has been seen to return within some number of
    evaluations of its loop condition, observing more of them changes
    nothing: the calls made and the fact of returning are the same. *)
Theorem worker_fuel_adequate fuel : forall i fuel',
  (process_callback env fuel i).2 = true -> fuel <= fuel' ->
  process_callback env fuel' i = process_callback env fuel i.
Proof.
  induction fuel as [|fuel IH]; intros i fuel' R L; [discriminate R|].
  destruct fuel' as [|fuel']; [lia|].
  destruct (continues env i) eqn:C.
  - rewrite !process_callback_step by exact C.
    rewrite process_callback_step in R by exact C. cbn [snd] in R.
    rewrite (IH (S i) fuel' R) by lia. reflexivity.
  - rewrite !process_callback_exit by exact C. reflexivity.
Qed.

(** X18.  The worker calls [Time.sleep(1000)] once for every
    [scene_manager.process] call that reports no progress, and makes no
    other sleep call. *)
Theorem worker_sleeps_match_stalls fuel : forall i,
  calls Obs.is_sleep (process_callback env fuel i).1 =
  replicate (length (calls Obs.is_stall (process_callback env fuel i).1))
            (TimeSleep 1000).
Proof.
  induction fuel as [|fuel IH]; intros i; [reflexivity|].
  destruct (continues env i) eqn:C.
  - rewrite process_callback_step by exact C. cbn [fst].
    unfold round, iteration.
    destruct (process env i);
      cbn [app calls what Obs.is_sleep Obs.is_stall length replicate];
      rewrite IH; reflexivity.
  - rewrite process_callback_exit by exact C. cbn [fst]. unfold exit_calls.
    destruct (manager_valid env i); reflexivity.
Qed.

(** X19.  The worker writes 'Thread Done' exactly once, as its last
    call, when its loop has ended, and not at all while the loop is
    running. *)
Theorem worker_logs_once fuel : forall i,
  if (process_callback env fuel i).2
  then last (process_callback env fuel i).1 = Some (Ev 275 LogThreadDone) /\
       calls Obs.is_thread_done (process_callback env fuel i).1 = [LogThreadDone]
  else calls Obs.is_thread_done (process_callback env fuel i).1 = [].
Proof.
  induction fuel as [|fuel IH]; intros i; [reflexivity|].
  destruct (continues env i) eqn:C.
  - rewrite process_callback_step by exact C. cbn [fst snd].
    specialize (IH (S i)).
    assert (Er : calls Obs.is_thread_done (round env i) = []).
    { unfold round, iteration. destruct (process env i); reflexivity. }
    destruct (process_callback env fuel (S i)) as [t [|]]; cbn [fst snd] in *.
    + destruct IH as [La Ca]. split.
      * destruct t as [|e t]; [discriminate La|].
        rewrite last_app_cons. exact La.
      * rewrite calls_app, Er, Ca. reflexivity.
    + rewrite calls_app, Er, IH. reflexivity.
  - rewrite process_callback_exit by exact C. cbn [fst snd]. unfold exit_calls.
    destruct (manager_valid env i); split; reflexivity.
Qed.

End WorkerMore.

(** ** main: setup failures *)
Section MainMore.
Import Main.

Ltac setup_cases leaf :=
  intros env; destruct env as [a1 a2 a3 a4 a5 a6 a7 a8 a9 a10 a11 a12 a13 a14];
  cbn [app_create window_valid window_create window_set_hidden device_valid
       target_valid shader_vertex shader_fragment pipeline_create
       main_async_init process_async_init scene_manager_create
       render_manager_create final_update];
  destruct a1; [|lazy; leaf]; destruct a2; [|lazy; leaf];
  destruct a3; [|lazy; leaf]; destruct a4; [|lazy; leaf];
  destruct a5; [|lazy; leaf]; destruct a6; [|lazy; leaf];
  destruct a7; [|lazy; leaf]; destruct a8; [|lazy; leaf];
  destruct a9; [|lazy; leaf]; destruct a10; [|lazy; leaf];
  destruct a11; [|lazy; leaf]; destruct a12; [|lazy; leaf];
  destruct a13; [|lazy; leaf]; lazy.

(** X20.  [main] returns 0 or 1; it returns 0 exactly when all thirteen
    setup steps (lines 125-288) succeed, whatever the final
    [scene_manager.update] of line 503 answers; and [window.run] is
    called, once, exactly in that case. *)
Theorem main_exit_code : forall env,
  ((main env).2 = 0 \/ (main env).2 = 1) /\
  ((main env).2 = 0 <->
   Obs.setup_to_thread env && render_manager_create env = true) /\
  calls Obs.is_window_run (main env).1 =
    (if Obs.setup_to_thread env && render_manager_create env
     then [WindowRun] else []).
Proof.
  setup_cases ltac:(split; [right; reflexivity |];
                    split; [split; intros E; discriminate E | reflexivity]).
  split; [left; reflexivity |].
  split; [split; intros _; reflexivity | reflexivity].
Qed.

(** X21.  The worker thread is started exactly when every setup step up
    to [scene_manager.create] succeeds, but [scene_manager.terminate()]
    and [thread.join()] are called only when [render_manager.create]
    succeeds as well: when it fails (line 288), [main] returns with the
    thread started and neither terminated nor joined. *)
Theorem worker_thread_lifecycle : forall env,
  calls Obs.is_thread_start (main env).1 =
    (if Obs.setup_to_thread env then [ThreadStart] else []) /\
  calls is_terminate (main env).1 =
    (if Obs.setup_to_thread env && render_manager_create env
     then [SceneManagerTerminate] else []) /\
  calls is_join (main env).1 =
    (if Obs.setup_to_thread env && render_manager_create env
     then [ThreadJoin] else []).
Proof.
  setup_cases ltac:(repeat split; reflexivity).
  repeat split; reflexivity.
Qed.

(** X22.  When [main] returns 0 no setup step has failed; when it
    returns anything else exactly one setup step has failed and that call
    is the last call [main] makes. *)
Theorem failed_setup_is_last : forall env,
  if (main env).2 =? 0
  then calls Obs.is_setup_failure (main env).1 = []
  else exists e, last (main env).1 = Some e /\
         calls Obs.is_setup_failure (main env).1 = [what e].
Proof.
  setup_cases ltac:(eexists; split; reflexivity).
  reflexivity.
Qed.

End MainMore.

(** ** The further properties at the sample inputs *)



(** Frames 1 and 257 give the same texture. *)
Lemma create_image_frame_period_sample :
  @Image.create_image Sample.consts Sample.libm 2 1 =
  @Image.create_image Sample.consts Sample.libm 2 257.
Proof.
  apply (@create_image_frame_period Sample.consts Sample.libm 2 1 257).
  reflexivity.
Defined.

Lemma derived_width_within_one_sample :
  exists w, Frame.derived_width Scenario.narrow 900 = Py.Ok w /\ 1600 <= w <= 1601.
Proof.
  destruct (derived_width_within_one Scenario.narrow 900) as [w [E B]];
    [ lia | vm_compute; discriminate | reflexivity | reflexivity | ].
  exists w. split; [exact E | exact B].
Defined.

Lemma derived_width_monotone_sample :
  exists w1 w2,
    Frame.derived_width Scenario.narrow 900 = Py.Ok w1 /\
    Frame.derived_width Scenario.wide 900 = Py.Ok w2 /\ w1 <= w2.
Proof.
  exists 1600, 2400.
  split; [vm_compute; reflexivity|]. split; [vm_compute; reflexivity|].
  apply (derived_width_monotone Scenario.narrow Scenario.wide 900);
    [ lia | reflexivity | reflexivity | vm_compute; discriminate
    | vm_compute; reflexivity | vm_compute; reflexivity ].
Defined.

(** The pointer of the healthy frame, at the centre of the window, is
    handed over at the centre of the 1600 x 900 viewport. *)
Lemma pointer_within_viewport_sample :
  exists mx my,
    calls Obs.is_set_mouse
      (@Frame.trace Sample.consts Sample.libm 3 Sample.healthy Sample.fresh)
      = [RootSetMouse mx my 0] /\
    (0 <= mx <= 1600)%Q /\ (0 <= my <= 900)%Q.
Proof.
  eexists. eexists. split; [vm_compute; reflexivity|].
  match goal with
  | |- (0 <= ?mx <= _)%Q /\ (0 <= ?my <= _)%Q =>
      destruct (@pointer_within_viewport Sample.consts Sample.libm 3 Sample.healthy
                  Sample.fresh 1600 900 mx my 0) as (X & Y & _)
  end;
    [ cbn; lia | cbn; lia | cbn; lia | cbn; lia | cbn; lia | cbn; lia
    | vm_compute; reflexivity | vm_compute; reflexivity | ].
  split; [exact X | exact Y].
Defined.

(** The first frame of a window minimised to zero width. *)
Lemma zero_size_window_raises_sample :
  @Frame.result Sample.consts Sample.libm 3 Scenario.minimised Sample.fresh
    = Frame.Raised Py.ZeroDivisionError /\
  calls Frame.is_present
    (@Frame.trace Sample.consts Sample.libm 3 Scenario.minimised Sample.fresh) = [].
Proof.
  destruct (@zero_size_window_raises Sample.consts Sample.libm 3 Scenario.minimised
              Sample.fresh) as (R & _ & _ & P).
  - left. reflexivity.
  - vm_compute. discriminate.
  - split; [exact R | exact P].
Defined.

Lemma main_loop_never_raises_sample :
  @Frame.result Sample.consts Sample.libm 3 Sample.healthy Sample.fresh
    <> Frame.Raised Py.ZeroDivisionError.
Proof.
  apply (@main_loop_never_raises Sample.consts Sample.libm 3 Sample.healthy
           Sample.fresh sample_pi_range clipped_cos_range).
  - cbn. lia.
  - cbn. lia.
  - repeat split; cbn; lia.
Defined.

Lemma interface_loop_diverges_sample :
  @Frame.result Sample.consts Sample.libm 5 Scenario.stuck_interface Sample.fresh
    = Frame.Spinning /\
  calls Frame.is_present
    (@Frame.trace Sample.consts Sample.libm 5 Scenario.stuck_interface Sample.fresh)
    = [].
Proof.
  destruct (@interface_loop_diverges Sample.consts Sample.libm 5
              Scenario.stuck_interface Sample.fresh) as (R & _ & P).
  - intros k. reflexivity.
  - vm_compute. discriminate.
  - split; [exact R | exact P].
Defined.

(** The healthy frame: [root.update] answers True once, then False. *)
Lemma interface_loop_ends_sample :
  @Frame.result Sample.consts Sample.libm 3 Sample.healthy Sample.fresh
    <> Frame.Spinning /\
  calls Obs.is_root_update_call
    (@Frame.trace Sample.consts Sample.libm 3 Sample.healthy Sample.fresh)
    = [RootUpdate true; RootUpdate false] /\
  @Frame.run Sample.consts Sample.libm 9 Sample.healthy Sample.fresh =
  @Frame.run Sample.consts Sample.libm 3 Sample.healthy Sample.fresh.
Proof.
  destruct (@interface_loop_ends Sample.consts Sample.libm 3 Sample.healthy
              Sample.fresh 1) as (R & C & F).
  - split; [reflexivity|]. intros j Hj. destruct j as [|j]; [reflexivity | lia].
  - lia.
  - split; [exact R|]. split; [apply C; vm_compute; discriminate | apply F; lia].
Defined.

Lemma presented_frame_left_loop_sample :
  exists n, (n < 3)%nat /\
    Obs.first_false (Frame.root_update Sample.healthy) n /\
    calls Obs.is_root_update_call
      (@Frame.trace Sample.consts Sample.libm 3 Sample.healthy Sample.fresh)
      = replicate n (RootUpdate true) ++ [RootUpdate false].
Proof.
  apply (@presented_frame_left_loop Sample.consts Sample.libm 3 Sample.healthy
           Sample.fresh).
  vm_compute. discriminate.
Defined.

(** Five evaluations of the condition are enough for the worker that is
    terminated at its third. *)
Lemma worker_fuel_adequate_sample :
  Worker.process_callback Sample.terminated_at_2 9 0 =
  Worker.process_callback Sample.terminated_at_2 5 0.
Proof.
  apply (worker_fuel_adequate Sample.terminated_at_2 5 0 9);
    [reflexivity | lia].
Defined.
